(** * dynophores.viz.plot.static: data preparation behind the static plots

    A shallow embedding of [src/dynophores/viz/plot/static.py].  The module
    slices and recodes tables owned by a [Dynophore] object and hands them
    to matplotlib.  The embedding keeps

    - the pandas objects the module manipulates ([DataFrame], [Series]) as
      values stored in a heap of objects, so that aliasing between the
      caller's table and the tables built by the module is visible;
    - Python exceptions as an error result;
    - the calls into the plotting library as a trace of events.

    A present cell is a double, kept as the rational it denotes: an
    occurrence (0/1) is the rational 0 or 1, a distance is a non-negative
    double; a missing value (NaN/None) is [NA].  Sums are added as the
    program adds them, each addition rounded to the nearest double. *)

From Stdlib Require Import ZArith QArith Qround Ascii String List Lia Permutation.
From stdpp Require Import base tactics option list sorting gmap strings.

Close Scope Q_scope.
Local Open Scope Z_scope.

(** ** Python exceptions *)

(** The argument of a [KeyError]: the three places that can raise one. *)
Inductive key_error :=
  | UnknownSuperfeature (name : string)  (* Dynophore's name validation *)
  | MissingKey (key : string)            (* [d[key]] on a dict or a column index *)
  | UnknownPlottingKind.                 (* 'Plotting kind is unknown. ...' *)

Inductive exn :=
  | KeyError (k : key_error)
  | ValueError
  | TypeError      (* pandas: 'no numeric data to plot' *)
  | IndexError
  | ReferenceLost.  (* a reference outside the heap; no Python program reaches it *)

Inductive result (A : Type) :=
  | Ok (a : A)
  | Raise (e : exn).
Arguments Ok {A} a.
Arguments Raise {A} e.

#[global] Instance result_ret : MRet result := λ A a, Ok a.
#[global] Instance result_bind : MBind result := λ A B f r,
  match r with Ok a => f a | Raise e => Raise e end.

(** ** itertools.islice *)

Definition sys_maxsize : Z := 2 ^ 63 - 1.

(** Keep one element, then skip [step - 1]; [skip] counts the elements still
    to be passed over before the next one is kept. *)
Fixpoint stride {A} (step skip : nat) (l : list A) : list A :=
  match l with
  | [] => []
  | x :: l' =>
      match skip with
      | O => x :: stride step (step - 1) l'
      | S k => stride step k l'
      end
  end.

(** The elements at positions [start, start + step, ...] below [stop]. *)
Definition strided {A} (start stop step : nat) (l : list A) : list A :=
  stride step 0 (take (stop - start) (drop start l)).

(** [islice(iterable, start, stop, step)]; the arguments are checked when
    the iterator is built: indices within [0, sys.maxsize], a positive
    step. *)
Definition islice {A} (iterable : list A) (start stop step : Z) : result (list A) :=
  if negb ((0 <=? start) && (start <=? sys_maxsize)
           && (0 <=? stop) && (stop <=? sys_maxsize)) then Raise ValueError
  else if negb ((1 <=? step) && (step <=? sys_maxsize)) then Raise ValueError
  else Ok (strided (Z.to_nat start) (Z.to_nat stop) (Z.to_nat step) iterable).

(** ** pandas values *)

Inductive cell :=
  | Num (q : Q)
  | NA.

Record Series := { s_index : list Z; s_values : list cell }.

(** A table: row labels, and named columns in their order. *)
Record DataFrame := {
  index : list Z;
  columns : list (string * list cell)
}.

Definition shape0 (df : DataFrame) : nat := length (index df).
Definition column_names (df : DataFrame) : list string := (columns df).*1.

(** ** Addition of doubles

    The two infinities are kept as [2^1024] and [- 2^1024], one binade
    beyond the largest double. *)
Definition float64_inf : Q := inject_Z (2 ^ 1024).

Definition is_inf (q : Q) : bool :=
  Qle_bool float64_inf q || Qle_bool q (Qopp float64_inf).

(** [n / d] rounded to the nearest integer, a tie to the even one. *)
Definition round_half_even (n d : Z) : Z :=
  let q := n / d in
  match 2 * (n mod d) ?= d with
  | Lt => q
  | Gt => q + 1
  | Eq => if Z.even q then q else q + 1
  end.

(** IEEE 754 binary64, round to nearest, ties to even: 53 significant bits
    above [2^-1022], multiples of [2^-1074] below, infinite from
    [2^1024 - 2^970] on.  [e] is the exponent of the rational, [s] that of
    the last place kept. *)
Definition float64_round (q : Q) : Q :=
  let n := Z.abs (Qnum q) in
  let d := Zpos (Qden q) in
  if n =? 0 then 0%Q
  else
    let e0 := Z.log2 n - Z.log2 d in
    let e := if d * 2 ^ Z.max 0 e0 <=? n * 2 ^ Z.max 0 (- e0) then e0 else e0 - 1 in
    let s := Z.max (e - 52) (-1074) in
    let m := round_half_even (n * 2 ^ Z.max 0 (- s)) (d * 2 ^ Z.max 0 s) in
    let magnitude :=
      Qred (Qmake (m * 2 ^ Z.max 0 s) (Z.to_pos (2 ^ Z.max 0 (- s)))) in
    let magnitude :=
      if Qle_bool float64_inf magnitude then float64_inf else magnitude in
    if 0 <? Qnum q then magnitude else Qopp magnitude.

(** [x + y] on doubles: an infinity absorbs what is finite, two opposite
    infinities give NaN, everything else is the rounded sum.  A rational
    that is no double stands for the double nearest to it, as a literal
    does in Python. *)
Definition float64_add (x y : Q) : cell :=
  let x := float64_round x in
  let y := float64_round y in
  if is_inf x then
    if is_inf y && negb (Bool.eqb (0 <? Qnum x) (0 <? Qnum y)) then NA
    else Num x
  else if is_inf y then Num y
  else Num (float64_round (x + y)).

(** The builtin [sum] over a column: [0 + v1 + v2 + ...], one rounded
    addition after the other; a missing value makes the sum missing.
    (Python adds the integers of an integer column exactly; the two agree
    while the sums stay below [2^53], as the counts of occurrences do.) *)
Definition cell_add (a b : cell) : cell :=
  match a, b with
  | Num x, Num y => float64_add x y
  | _, _ => NA
  end.
Definition py_sum (vs : list cell) : cell := foldl cell_add (Num 0) vs.

(** [dataframe.apply(sum)]: the series of column sums, labelled by column. *)
Definition df_apply_sum (df : DataFrame) : list (string * cell) :=
  (λ c, (c.1, py_sum c.2)) <$> columns df.

Definition isna (c : cell) : bool :=
  match c with NA => true | Num _ => false end.

(** Order of [sort_values(ascending=False)]: larger first, missing last. *)
Definition sum_geb (a b : cell) : bool :=
  match a, b with
  | Num x, Num y => Qle_bool y x
  | _, NA => true
  | NA, Num _ => false
  end.
Definition by_sum_desc : relation (string * cell) := λ a b, sum_geb a.2 b.2.

(** One step of the insertion sort: [e] goes in front of the first entry
    that is not larger than it. *)
Fixpoint insert_desc (e : string * cell) (l : list (string * cell))
  : list (string * cell) :=
  match l with
  | [] => [e]
  | x :: l' => if sum_geb e.2 x.2 then e :: x :: l' else x :: insert_desc e l'
  end.

(** [series.sort_values(ascending=False)]: the present values sorted
    descending, then the missing ones ([na_position='last']) in their
    original order.  pandas reverses the values, sorts them ascending with
    numpy's quicksort and reverses the result; for up to 16 values that
    quicksort is an insertion sort, so equal values keep the order they
    came in, as they do here.  Beyond 16 values the order among equal
    values is numpy's and not fixed by pandas. *)
Definition sort_values_desc (s : list (string * cell)) : list (string * cell) :=
  foldr insert_desc [] (filter (λ e, isna e.2 = false) s)
    ++ filter (λ e, isna e.2 = true) s.

(** [dataframe[names]]: for each requested name the columns carrying it;
    a name the table does not have is a [KeyError]. *)
Definition df_getitem (df : DataFrame) (names : list string) : result DataFrame :=
  cols ← mapM (λ name,
            match filter (λ c, c.1 = name) (columns df) with
            | [] => Raise (KeyError (MissingKey name))
            | cs => Ok cs
            end) names;
  Ok {| index := index df; columns := concat cols |}.

(** One positional lookup of [iloc]: negative positions count from the end,
    positions outside the axis are an [IndexError]. *)
Definition iloc_at {A} (l : list A) (n : nat) (p : Z) : result A :=
  let q := if p <? 0 then Z.of_nat n + p else p in
  if q <? 0 then Raise IndexError
  else match l !! Z.to_nat q with
       | Some x => Ok x
       | None => Raise IndexError
       end.

(** [dataframe.iloc[positions, :]] *)
Definition df_iloc (df : DataFrame) (positions : list Z) : result DataFrame :=
  let n := shape0 df in
  ix ← mapM (iloc_at (index df) n) positions;
  cols ← mapM (λ c, vs ← mapM (iloc_at c.2 n) positions; Ok (c.1, vs)) (columns df);
  Ok {| index := ix; columns := cols |}.

(** [dataframe.items()]: the columns as (name, Series) pairs. *)
Definition df_items (df : DataFrame) : list (string * Series) :=
  (λ c, (c.1, {| s_index := index df; s_values := c.2 |})) <$> columns df.

(** [series.replace(to_replace, value)] with two lists: a cell equal to
    [to_replace[j]] becomes [value[j]]; missing cells equal nothing. *)
Definition replace_cell (to_replace : list Q) (value : list cell) (c : cell) : cell :=
  match c with
  | NA => NA
  | Num q =>
      match list_find (λ tv, Qeq_bool q tv.1 = true) (zip to_replace value) with
      | Some (_, (_, v)) => v
      | None => Num q
      end
  end.
Definition series_replace (s : Series) (to_replace : list Q) (value : list cell) : Series :=
  {| s_index := s_index s; s_values := replace_cell to_replace value <$> s_values s |}.

(** A Python [dict] keeps insertion order; assigning to a key it already
    has replaces the value in place. *)
Fixpoint dict_set {V} (d : list (string * V)) (k : string) (v : V) : list (string * V) :=
  match d with
  | [] => [(k, v)]
  | (k', v') :: d' =>
      if decide (k' = k) then (k, v) :: d' else (k', v') :: dict_set d' k v
  end.

(** [pd.DataFrame(dict_of_series)]: the columns in dict order over the
    series' common index; an empty dict gives the table without rows. *)
Definition pd_DataFrame (d : list (string * Series)) : DataFrame :=
  {| index := match d with [] => [] | (_, s) :: _ => s_index s end;
     columns := (λ e, (e.1, s_values e.2)) <$> d |}.

(** [enumerate(xs)] *)
Definition enumerate {A} (xs : list A) : list (nat * A) := imap (λ i x, (i, x)) xs.

(** ** The heap of tables and the plotting trace *)

Definition ref := nat.

(** What the module asks of its collaborators: tables of the [Dynophore]
    object, and drawing calls on the axes of the figure being built. *)
Inductive plot_kind := Line | Hist | Markers.

(** An axes of the grid made by [plt.subplots]: row and column. *)
Definition axes_t : Type := nat * nat.

Inductive event :=
  | GetTable (attribute key : string)          (* dynophore.<attribute>[key] *)
  | Subplots (nrows ncols : nat)               (* plt.subplots(...) *)
  | SetTitle (ax : axes_t) (title : string)
  | Plot (ax : axes_t) (data : ref) (kind : plot_kind)
  | PlaceholderTicks (ax : axes_t)             (* set_yticks([0]), set_yticklabels(['']) *)
  | Cosmetics (ax : axes_t).                   (* ticks, labels, limits, legend *)

Record world := World {
  heap : gmap ref DataFrame;
  trace : list event
}.

(** Computations that read and extend the world and may raise. *)
Definition M (A : Type) : Type := world → result A * world.

#[global] Instance M_ret : MRet M := λ A a w, (Ok a, w).
#[global] Instance M_bind : MBind M := λ A B f m w,
  match m w with
  | (Ok a, w') => f a w'
  | (Raise e, w') => (Raise e, w')
  end.

Definition raise {A} (e : exn) : M A := λ w, (Raise e, w).
Definition lift {A} (r : result A) : M A := λ w, (r, w).
Definition emit (e : event) : M unit :=
  λ w, (Ok (), {| heap := heap w; trace := trace w ++ [e] |}).

(** Every pandas call that returns a table returns a new object. *)
Definition new (df : DataFrame) : M ref := λ w,
  let r := fresh (dom (heap w)) in
  (Ok r, {| heap := <[r := df]> (heap w); trace := trace w |}).
Definition load (r : ref) : M DataFrame := λ w,
  match heap w !! r with
  | Some df => (Ok df, w)
  | None => (Raise ReferenceLost, w)
  end.

(** [plt.subplots(nrows=..., ncols=...)] with a computed size: matplotlib's
    grid refuses a number of rows or columns below one with a
    [ValueError]. *)
Definition plt_subplots (nrows ncols : nat) : M unit :=
  if decide (nrows = 0 ∨ ncols = 0)%nat then raise ValueError
  else emit (Subplots nrows ncols).

(** [data.plot(...)] on a table of numbers: pandas plots the numeric
    columns and raises [TypeError] when there is none. *)
Definition df_plot (ax : axes_t) (data : ref) (kind : plot_kind) : M unit :=
  df ← load data;
  match columns df with
  | [] => raise TypeError
  | _ => emit (Plot ax data kind)
  end.

(** ** static.py *)

(** [frame_range = [start, end]]; [end] may be [None]. *)
Definition frame_range_t : Type := Z * option Z.

Definition _slice_dataframe_rows
    (dataframe : ref) (ix_range : frame_range_t) (ix_step_size : Z) : M ref :=
  let ix_start := ix_range.1 in
  let ix_end := ix_range.2 in
  df ← load dataframe;
  let ix_end := match ix_end with None => Z.of_nat (shape0 df) | Some e => e end in
  let ix_end := ix_end + 1 in
  selected_indices ← lift (islice (index df) ix_start ix_end ix_step_size);
  sliced ← lift (df_iloc df selected_indices);
  new sliced.

Definition _prepare_dataframe_for_plotting
    (dataframe : ref) (frame_range : frame_range_t) (frame_step_size : Z)
    (is_occurrences : bool) : M ref :=
  (* Sort columns by superfeature/envpartner frequency *)
  df ← load dataframe;
  let sorted_columns := (sort_values_desc (df_apply_sum df)).*1 in
  reordered ← lift (df_getitem df sorted_columns);
  dataframe ← new reordered;
  (* Slice rows *)
  dataframe ← _slice_dataframe_rows dataframe frame_range frame_step_size;
  (* Transform 1 in binary values to rank in plot *)
  if is_occurrences then
    df ← load dataframe;
    let dataframe_plot :=
      foldl (λ d '(i, (name, data)),
               dict_set d name
                 (series_replace data [0%Q; 1%Q] [NA; Num (inject_Z (Z.of_nat i + 1))]))
            [] (enumerate (df_items df)) in
    new (pd_DataFrame dataframe_plot)
  else mret dataframe.

(** Defaults of [_prepare_dataframe_for_plotting]. *)
Definition default_frame_range : frame_range_t := (0, None).
Definition default_frame_step_size : Z := 1.
Definition default_is_occurrences : bool := true.

(** ** The Dynophore collaborator *)

Module Dynophore.
(** The part of a [dynophores.Dynophore] this module uses: the names of
    its superfeatures, and its tables, kept by reference. *)
Record t := {
  superfeatures : list string;
  superfeatures_occurrences : ref;
  envpartners_occurrences : list (string * ref);
  envpartners_distances : list (string * ref)
}.

(** Modelled from the spec: [Dynophore._raise_keyerror_if_invalid_superfeature_name]
    is defined outside this module; the spec has it validate a requested
    name against the collaborator's known-name set and signal a lookup
    failure for an unrecognized name. *)
Definition _raise_keyerror_if_invalid_superfeature_name
    (dynophore : t) (superfeature_name : string) : M unit :=
  if decide (superfeature_name ∈ superfeatures dynophore) then mret ()
  else raise (KeyError (UnknownSuperfeature superfeature_name)).
End Dynophore.

(** [d[key]] on a dict attribute of the dynophore. *)
Fixpoint assoc {V} (d : list (string * V)) (key : string) : option V :=
  match d with
  | [] => None
  | (k, v) :: d' => if decide (k = key) then Some v else assoc d' key
  end.

Definition get_table (attribute : string) (d : list (string * ref)) (key : string) : M ref :=
  emit (GetTable attribute key);;
  match assoc d key with
  | Some r => mret r
  | None => raise (KeyError (MissingKey key))
  end.

(** ** Selectors *)

(** What callers pass as [superfeature_names]: a string, a list of strings,
    or the tuple of strings that IPyWidgets hands over. *)
Inductive selector :=
  | Str (s : string)
  | List (l : list string)
  | Tuple (l : list string).

(** [needle in hay] on two strings: [needle] occurs somewhere in [hay]. *)
Fixpoint str_contains (needle hay : string) : bool :=
  String.prefix needle hay
  || match hay with
     | EmptyString => false
     | String _ hay' => str_contains needle hay'
     end.

(** [x in names]: a substring of a string, an element of a list. *)
Definition py_in (x : string) (names : string + list string) : bool :=
  match names with
  | inl s => str_contains x s
  | inr l => bool_decide (x ∈ l)
  end.

(** [len(names)] and the elements a [for] loop sees: the characters of a
    string, the elements of a list or tuple. *)
Definition py_iter (names : selector) : list string :=
  match names with
  | Str s => (λ a, String a EmptyString) <$> list_ascii_of_string s
  | List l | Tuple l => l
  end.
Definition py_len (names : selector) : nat := length (py_iter names).

Fixpoint for_ {A} (xs : list A) (body : A → M unit) : M unit :=
  match xs with
  | [] => mret ()
  | x :: xs' => body x;; for_ xs' body
  end.

Definition _format_superfeature_names
    (dynophore : Dynophore.t) (superfeature_names : selector) : M selector :=
  (* IPyWidgets' interact function: Cast tuple > list *)
  let superfeature_names : string + list string :=
    match superfeature_names with
    | Tuple l => inr l
    | List l => inr l
    | Str s => inl s
    end in
  if py_in "all" superfeature_names then mret (Str "all")
  else
    let superfeature_names :=
      match superfeature_names with
      | inr l => l
      | inl s => [s]
      end in
    for_ superfeature_names
         (Dynophore._raise_keyerror_if_invalid_superfeature_name dynophore);;
    mret (List superfeature_names).

(** ** Entry points *)

(** [data.isna().all().all()]; this is also when [data.min().min()] and
    [data.max().max()] are NaN. *)
Definition all_missing (df : DataFrame) : bool :=
  forallb (λ c : string * list cell, forallb isna c.2) (columns df).

(** [data.min().min()] and [data.max().max()]: the least and the largest
    of the present numbers, taken to be finite (0 stands in when there is
    none; the callers have raised by then). *)
Definition present_values (df : DataFrame) : list Q :=
  c ← columns df; omap (λ x, match x with Num q => Some q | NA => None end) c.2.

Definition df_min (df : DataFrame) : Q :=
  match present_values df with
  | [] => 0%Q
  | v :: vs => foldl (λ a b, if Qle_bool a b then a else b) v vs
  end.

Definition df_max (df : DataFrame) : Q :=
  match present_values df with
  | [] => 0%Q
  | v :: vs => foldl (λ a b, if Qle_bool a b then b else a) v vs
  end.

(** The axes of subplot [i] in a column of [n] subplots: [axes[i]], or
    [axes] itself when there is one subplot. *)
Definition nth_axes (n i : nat) : axes_t :=
  if decide (1 < n)%nat then (i, 0%nat) else (0%nat, 0%nat).

(** The drawing calls are recorded as events.  Those that raise on what
    the module hands them are modelled so: [plt.subplots] without a row,
    [data.plot] without a numeric column, and the histogram without a
    bin. *)
Definition envpartners_occurrences
    (dynophore : Dynophore.t) (superfeature_names : selector)
    (frame_range : frame_range_t) (frame_step_size : Z) : M unit :=
  superfeature_names ← _format_superfeature_names dynophore superfeature_names;
  plt_subplots (py_len superfeature_names) 1;;
  for_ (enumerate (py_iter superfeature_names)) (λ '(i, superfeature_name),
    let ax := nth_axes (py_len superfeature_names) i in
    (* Add plot title *)
    emit (SetTitle ax superfeature_name);;
    (* Prepare data *)
    data ← get_table "envpartners_occurrences"
             (Dynophore.envpartners_occurrences dynophore) superfeature_name;
    data ← _prepare_dataframe_for_plotting data frame_range frame_step_size true;
    df ← load data;
    if all_missing df then emit (PlaceholderTicks ax)
    else
      (* a column with a present cell is numeric *)
      emit (Plot ax data Markers);;
      emit (Cosmetics ax);;
      (* data.index[0], data.index[-1] *)
      match index df with
      | [] => raise IndexError
      | _ => emit (Cosmetics ax)
      end).

Definition envpartners_distances
    (dynophore : Dynophore.t) (superfeature_names : selector) (kind : string)
    (frame_range : frame_range_t) (frame_step_size : Z) : M unit :=
  superfeature_names ← _format_superfeature_names dynophore superfeature_names;
  plt_subplots (py_len superfeature_names) 1;;
  for_ (enumerate (py_iter superfeature_names)) (λ '(i, superfeature_name),
    let ax := nth_axes (py_len superfeature_names) i in
    (* Add plot title *)
    emit (SetTitle ax superfeature_name);;
    (* Prepare data *)
    data ← get_table "envpartners_distances"
             (Dynophore.envpartners_distances dynophore) superfeature_name;
    data ← _prepare_dataframe_for_plotting data frame_range frame_step_size false;
    if decide (kind = "line") then
      df_plot ax data Line;;
      emit (Cosmetics ax)
    else if decide (kind = "hist") then
      df ← load data;
      (* int(np.floor(nan)) *)
      if all_missing df then raise ValueError
      else
        let value_floor := Qfloor (df_min df) in
        let value_ceil := Qceiling (df_max df) in
        (* bins=np.arange(value_floor, value_ceil, 0.1): without a bin
           pandas' np.zeros(len(bins) - 1) raises *)
        if decide (value_ceil ≤ value_floor) then raise ValueError
        else
          emit (Plot ax data Hist);;
          emit (Cosmetics ax)
    else raise (KeyError UnknownPlottingKind)).

(** The argument of [envpartners_all_in_one]: a name, or the tuple
    IPyWidgets hands over. *)
Inductive name_arg :=
  | Name (s : string)
  | NameTuple (l : list string).

(** [envpartners_all_in_one] up to its "Set up plot": the two tables it
    goes on to draw. *)
Definition envpartners_all_in_one_data
    (dynophore : Dynophore.t) (superfeature_name : name_arg)
    (frame_range : frame_range_t) (frame_step_size : Z) : M (ref * ref) :=
  (* IPyWidgets' interact function: Cast tuple > str; keep only first *)
  superfeature_name ←
    match superfeature_name with
    | NameTuple [] => raise IndexError
    | NameTuple (s :: _) => mret s
    | Name s => mret s
    end;
  Dynophore._raise_keyerror_if_invalid_superfeature_name dynophore superfeature_name;;
  (* Get data *)
  occurrences ← get_table "envpartners_occurrences"
                  (Dynophore.envpartners_occurrences dynophore) superfeature_name;
  distances ← get_table "envpartners_distances"
                (Dynophore.envpartners_distances dynophore) superfeature_name;
  occurrences ← _prepare_dataframe_for_plotting
                  occurrences frame_range frame_step_size default_is_occurrences;
  distances ← _prepare_dataframe_for_plotting
                distances frame_range frame_step_size default_is_occurrences;
  mret (occurrences, distances).

Definition envpartners_all_in_one
    (dynophore : Dynophore.t) (superfeature_name : name_arg)
    (frame_range : frame_range_t) (frame_step_size : Z) : M unit :=
  tables ← envpartners_all_in_one_data
             dynophore superfeature_name frame_range frame_step_size;
  let occurrences := tables.1 in
  let distances := tables.2 in
  (* Set up plot *)
  emit (Subplots 2 2);;
  (* Subplot (0, 0): Interaction occurrences (barplot) *)
  emit (Plot (0, 0)%nat occurrences Markers);;
  emit (Cosmetics (0, 0)%nat);;
  df ← load occurrences;
  (* occurrences.index[0], occurrences.index[-1] *)
  match index df with
  | [] => raise IndexError
  | _ => emit (Cosmetics (0, 0)%nat)
  end;;
  (* Subplot (0, 1): Empty (will hold legend from subplot (1, 1)) *)
  emit (Cosmetics (0, 1)%nat);;
  (* Subplot (1, 0): Distance time series *)
  emit (Plot (1, 0)%nat distances Line);;
  emit (Cosmetics (1, 0)%nat);;
  (* Subplot (1, 1): Distance histogram; math.ceil(distances.max().max()) *)
  df ← load distances;
  if all_missing df then raise ValueError
  else
    emit (Plot (1, 1)%nat distances Hist);;
    emit (Cosmetics (1, 1)%nat).

(** * Vocabulary of the properties *)

(** ** Tables of frames *)

(** Rows are the frames [0 .. n-1] in order, every column has one cell per
    frame, and no two columns share a name. *)
Definition frames_table (df : DataFrame) : Prop :=
  index df = seqZ 0 (Z.of_nat (shape0 df))
  ∧ Forall (λ c, length c.2 = shape0 df) (columns df)
  ∧ NoDup (column_names df).

#[global] Instance frames_table_dec df : Decision (frames_table df).
Proof. unfold frames_table. apply _. Defined.

(** The rows [start, start + step, ...] below [stop] of every column. *)
Definition select_rows (start stop step : nat) (df : DataFrame) : DataFrame :=
  {| index := strided start stop step (index df);
     columns := (λ c, (c.1, strided start stop step c.2)) <$> columns df |}.

(** ** The steps of the preparation *)

(** The column names in plot order, and the table with its columns in that
    order: what [dataframe[sorted_columns]] evaluates to. *)
Definition sorted_column_names (df : DataFrame) : list string :=
  (sort_values_desc (df_apply_sum df)).*1.

Definition pick_columns (l : list (string * list cell)) (names : list string) :=
  concat ((λ name, filter (λ c, c.1 = name) l) <$> names).

Definition reorder (df : DataFrame) : DataFrame :=
  {| index := index df;
     columns := pick_columns (columns df) (sorted_column_names df) |}.

(** The exclusive stop handed to [islice]. *)
Definition ix_stop (df : DataFrame) (range : frame_range_t) : Z :=
  match range.2 with None => Z.of_nat (shape0 df) | Some e => e end + 1.

(** The arguments [islice] accepts. *)
Definition valid_slice (df : DataFrame) (range : frame_range_t) (step : Z) : Prop :=
  0 ≤ range.1 ≤ sys_maxsize
  ∧ 0 ≤ ix_stop df range ≤ sys_maxsize
  ∧ 1 ≤ step ≤ sys_maxsize.

#[global] Instance valid_slice_dec df range step : Decision (valid_slice df range step).
Proof. unfold valid_slice. apply _. Defined.

Definition sliced (df : DataFrame) (range : frame_range_t) (step : Z) : DataFrame :=
  select_rows (Z.to_nat range.1) (Z.to_nat (ix_stop df range)) (Z.to_nat step) df.

(** What the loop over [dataframe.items()] does to a cell of column [i]. *)
Definition recode (i : nat) : cell → cell :=
  replace_cell [0%Q; 1%Q] [NA; Num (inject_Z (Z.of_nat i + 1))].

(** The table built from the recoded columns. *)
Definition recoded (d : DataFrame) : DataFrame :=
  {| index := match columns d with [] => [] | _ => index d end;
     columns := imap (λ i c, (c.1, recode i <$> c.2)) (columns d) |}.

(** The table the preparation returns on a well-formed input. *)
Definition prepared (df : DataFrame) (range : frame_range_t) (step : Z)
    (occ : bool) : DataFrame :=
  let d := sliced (reorder df) range step in
  if occ then recoded d else d.

(** The cells of a column at the frames the range and step select. *)
Definition select_frames {A} (df : DataFrame) (range : frame_range_t) (step : Z)
    (l : list A) : list A :=
  strided (Z.to_nat range.1) (Z.to_nat (ix_stop df range)) (Z.to_nat step) l.

(** [out] is the table of frames [df] prepared for plotting: the columns
    of [df] in an order of non-increasing sums (columns of equal sum in
    any order), each holding its cells at the selected frames, recoded by
    its position when the values are occurrences, over the selected frames
    as index.  ([pd.DataFrame] of no column has no row either.) *)
Definition prepared_from (df : DataFrame) (range : frame_range_t) (step : Z)
    (occ : bool) (out : DataFrame) : Prop :=
  ∃ totals,
    totals ≡ₚ df_apply_sum df
    ∧ StronglySorted by_sum_desc totals
    ∧ column_names out = totals.*1
    ∧ index out = match occ, columns df with
                  | true, [] => []
                  | _, _ => select_frames df range step (index df)
                  end
    ∧ ∀ i name cells',
        columns out !! i = Some (name, cells') →
        ∃ cells,
          (name, cells) ∈ columns df
          ∧ cells' = (if occ then recode i else id) <$> select_frames df range step cells.

(** ** Objects before and after a call *)

(** What a computation that only creates objects leaves behind: the objects
    of [w] are unchanged in [w'], and a returned reference is to an object
    that [w] did not have. *)
Definition only_creates (w : world) (res : result ref) (w' : world) : Prop :=
  heap w ⊆ heap w'
  ∧ ∀ r', res = Ok r' → heap w !! r' = None ∧ is_Some (heap w' !! r').

(** ** Selectors and failures *)

(** The names a selector asks for, and whether it mentions ["all"]: as an
    element of a list or tuple, or anywhere inside a single string. *)
Definition requested (names : selector) : list string :=
  match names with
  | Str s => [s]
  | List l | Tuple l => l
  end.

Definition contains_all (names : selector) : Prop :=
  match names with
  | Str s => str_contains "all" s = true
  | List l | Tuple l => "all" ∈ l
  end.

#[global] Instance contains_all_dec names : Decision (contains_all names).
Proof. destruct names; simpl; apply _. Defined.

(** The exceptions a result, or a computation from any world, can carry. *)
Definition result_raises (P : exn → Prop) {A} (r : result A) : Prop :=
  ∀ e, r = Raise e → P e.
Definition raises (P : exn → Prop) {A} (m : M A) : Prop :=
  ∀ w e, (m w).1 = Raise e → P e.

(** The failure of the mode switch, and the exceptions that are not it. *)
Definition mode_failure : exn := KeyError UnknownPlottingKind.
Definition other_failure (e : exn) : Prop := e ≠ mode_failure.

(** A superfeature whose distance table the dynophore holds, as a table of
    frames from which the frame range and step size select. *)
Definition distances_ready (d : Dynophore.t) (w : world)
    (range : frame_range_t) (step : Z) (name : string) : Prop :=
  ∃ r df,
    assoc (Dynophore.envpartners_distances d) name = Some r
    ∧ heap w !! r = Some df
    ∧ frames_table df
    ∧ valid_slice df range step.

(** A superfeature whose distance table has something to draw: it is
    ready, has a column, and a frame of it is selected. *)
Definition distances_drawable (d : Dynophore.t) (w : world)
    (range : frame_range_t) (step : Z) (name : string) : Prop :=
  ∃ r df,
    assoc (Dynophore.envpartners_distances d) name = Some r
    ∧ heap w !! r = Some df
    ∧ frames_table df
    ∧ valid_slice df range step
    ∧ columns df ≠ []
    ∧ select_frames df range step (index df) ≠ [].

(** * The remaining rendering functions *)

(** ** The barcode of the superfeatures *)

(** [name.split("[")[0]]: the feature type in front of the atom list. *)
Fixpoint before_bracket (s : string) : string :=
  match s with
  | EmptyString => EmptyString
  | String a s' =>
      if decide (a = "["%char) then EmptyString else String a (before_bracket s')
  end.

(** The [color] argument of the barcode: one colour, or one per column. *)
Inductive colors :=
  | OneColor (c : string)
  | ColorList (l : list string).

(** [superfeature_names != "all"] is false for the string ["all"] alone. *)
Definition is_all (names : selector) : bool :=
  match names with
  | Str s => bool_decide (s = "all")
  | List _ | Tuple _ => false
  end.

(** [superfeatures_occurrences] up to its "Plot": the table it goes on to
    draw and the colours of its columns.  [FEATURE_COLORS] is the dict of
    [dynophores.definitions].  The normalization hands over ["all"] or a
    list, so [data[superfeature_names]] selects the columns of a list. *)
Definition superfeatures_occurrences_data
    (dynophore : Dynophore.t) (FEATURE_COLORS : list (string * string))
    (superfeature_names : selector) (color_by_feature_type : bool)
    (frame_range : frame_range_t) (frame_step_size : Z) : M (ref * colors) :=
  superfeature_names ← _format_superfeature_names dynophore superfeature_names;
  (* Prepare data *)
  let data := Dynophore.superfeatures_occurrences dynophore in
  data ← (if is_all superfeature_names then mret data
          else
            df ← load data;
            selected ← lift (df_getitem df (requested superfeature_names));
            new selected);
  data ← _prepare_dataframe_for_plotting data frame_range frame_step_size true;
  (* Feature type colors? *)
  df ← load data;
  let colors :=
    if color_by_feature_type then
      let feature_types := before_bracket <$> column_names df in
      ColorList ((λ i, default "black" (assoc FEATURE_COLORS i)) <$> feature_types)
    else OneColor "black" in
  mret (data, colors).

(** ** The heatmap of superfeatures against environment partners *)

(** [dynophore.frequency]: one row per environment partner and the row
    ["any"], one column per superfeature, kept row by row. *)
Record FrequencyTable := {
  ft_columns : list string;
  ft_rows : list (string * list cell)
}.

(** The cell of a row at a column position; a row that stops short reads
    as missing there. *)
Definition cell_at (cells : list cell) (i : nat) : cell := default NA (cells !! i).

(** [frequency.loc[label, :]]: the row with that label as a series over the
    columns; a label the table does not have is a [KeyError]. *)
Definition ft_loc (t : FrequencyTable) (label : string) : result (list (string * cell)) :=
  match assoc (ft_rows t) label with
  | Some cells => Ok ((λ e, (e.2, cell_at cells e.1)) <$> enumerate (ft_columns t))
  | None => Raise (KeyError (MissingKey label))
  end.

(** [frequency[names]]: for each requested name the columns carrying it. *)
Definition ft_getitem (t : FrequencyTable) (names : list string) : result FrequencyTable :=
  picked ← mapM (λ name,
              match filter (λ e, e.2 = name) (enumerate (ft_columns t)) with
              | [] => Raise (KeyError (MissingKey name))
              | es => Ok es
              end) names;
  let picked := concat picked in
  Ok {| ft_columns := picked.*2;
        ft_rows := (λ r, (r.1, (λ e, cell_at r.2 e.1) <$> picked)) <$> ft_rows t |}.

(** [data == 0] on a cell; a missing value equals nothing. *)
Definition is_zero (c : cell) : bool :=
  match c with
  | Num q => Qeq_bool q 0
  | NA => false
  end.

(** [data[~(data == 0).all(axis=1)]] *)
Definition ft_drop_zero_rows (t : FrequencyTable) : FrequencyTable :=
  {| ft_columns := ft_columns t;
     ft_rows := filter (λ r, forallb is_zero r.2 = false) (ft_rows t) |}.

(** [superfeatures_vs_envpartners], given [dynophore.frequency]; in place
    of the figure handles it returns the table it hands to [sns.heatmap]. *)
Definition superfeatures_vs_envpartners
    (dynophore : Dynophore.t) (frequency : FrequencyTable)
    (superfeature_names : selector) : M FrequencyTable :=
  superfeature_names ← _format_superfeature_names dynophore superfeature_names;
  (* Prepare data *)
  any ← lift (ft_loc frequency "any");
  data ← lift (ft_getitem frequency (sort_values_desc any).*1);
  data ← (if is_all superfeature_names then mret data
          else
            data ← lift (ft_getitem data (requested superfeature_names));
            mret (ft_drop_zero_rows data));
  emit (Subplots 1 1);;
  mret data.

(** ** Occurrence tables *)

(** A cell that is 0 or 1; a table of such cells. *)
Definition is_binary (c : cell) : bool :=
  match c with
  | Num q => Qeq_bool q 0 || Qeq_bool q 1
  | NA => false
  end.

Definition binary_table (df : DataFrame) : Prop :=
  Forall (λ c : string * list cell, Forall (λ x, is_binary x = true) c.2) (columns df).

#[global] Instance binary_table_dec df : Decision (binary_table df).
Proof. unfold binary_table. apply _. Defined.

(** No occurrence at all in a table. *)
Definition no_occurrence (df : DataFrame) : Prop :=
  Forall (λ c : string * list cell, Forall (λ x, is_zero x = true) c.2) (columns df).

#[global] Instance no_occurrence_dec df : Decision (no_occurrence df).
Proof. unfold no_occurrence. apply _. Defined.

(** ** Renderings and the tables that exist *)



(** What the distance rendering asks of matplotlib and of the dynophore
    for the panel of one superfeature in mode ["line"]. *)
Definition line_panel (n i : nat) (name : string) (data : ref) : list event :=
  [SetTitle (nth_axes n i) name;
   GetTable "envpartners_distances" name;
   Plot (nth_axes n i) data Line;
   Cosmetics (nth_axes n i)].

(** The name the combined rendering works on: the first of a tuple. *)
Definition first_name (arg : name_arg) : option string :=
  match arg with
  | Name s => Some s
  | NameTuple l => head l
  end.

(** ** Frequency tables *)

(** The position of a column, and the cell of a row under a column name. *)
Definition column_index (columns : list string) (name : string) : nat :=
  default 0%nat (fst <$> list_find (.= name) columns).

Definition row_cell (columns : list string) (cells : list cell) (name : string) : cell :=
  cell_at cells (column_index columns name).

(** Two columns in the order of the heatmap: the first has at least the
    frequency of the second in the row [cells], a missing one counting as
    least. *)
Definition by_frequency_desc (columns : list string) (cells : list cell)
  : relation string :=
  λ a b, sum_geb (row_cell columns cells a) (row_cell columns cells b).

(** A row with an interaction under one of the names. *)
Definition interacts (columns names : list string) (r : string * list cell) : Prop :=
  Exists (λ name, is_zero (row_cell columns r.2 name) = false) names.

#[global] Instance interacts_dec columns names r : Decision (interacts columns names r).
Proof. unfold interacts. apply _. Defined.

(** The colour of a column of the barcode. *)
Definition feature_color (FEATURE_COLORS : list (string * string)) (name : string) : string :=
  default "black" (assoc FEATURE_COLORS (before_bracket name)).

(** * A small dynophore *)

(** Superfeature occurrences over four frames. *)
Definition example_superfeatures : DataFrame :=
  {| index := [0; 1; 2; 3];
     columns := [("H[1]", [Num 0; Num 1; Num 0; Num 0]);
                 ("AR[2]", [Num 1; Num 1; Num 0; Num 1])] |}.

(** Occurrences and distances of the environment partners of [H[1]]. *)
Definition example_occurrences : DataFrame :=
  {| index := [0; 1; 2; 3];
     columns := [("ILE-10", [Num 0; Num 1; Num 0; Num 0]);
                 ("VAL-18", [Num 1; Num 1; Num 0; Num 1]);
                 ("PHE-80", [Num 1; Num 0; Num 1; Num 0])] |}.

Definition example_distances : DataFrame :=
  {| index := [0; 1; 2; 3];
     columns := [("ILE-10", [Num 0; Num (7 # 2); Num 0; Num 0]);
                 ("VAL-18", [Num 1; Num (5 # 2); Num 0; Num 4]);
                 ("PHE-80", [Num (9 # 2); Num 0; Num 1; Num 0])] |}.

(** Ten frames, two columns. *)
Definition example_ten_frames : DataFrame :=
  {| index := [0; 1; 2; 3; 4; 5; 6; 7; 8; 9];
     columns := [("ILE-10", [Num 0; Num 1; Num 0; Num 0; Num 1;
                             Num 0; Num 0; Num 0; Num 1; Num 0]);
                 ("VAL-18", [Num 1; Num 1; Num 0; Num 1; Num 1;
                             Num 1; Num 0; Num 1; Num 1; Num 1])] |}.

Definition example_world : world :=
  {| heap := <[0%nat := example_superfeatures]>
               (<[1%nat := example_occurrences]>
                  (<[2%nat := example_distances]>
                     (<[3%nat := example_ten_frames]> ∅)));
     trace := [] |}.

Definition example_dynophore : Dynophore.t :=
  {| Dynophore.superfeatures := ["H[1]"; "AR[2]"];
     Dynophore.superfeatures_occurrences := 0%nat;
     Dynophore.envpartners_occurrences := [("H[1]", 1%nat)];
     Dynophore.envpartners_distances := [("H[1]", 2%nat)] |}.

(** The frequencies of the interactions, in percent of the frames. *)
Definition example_frequency : FrequencyTable :=
  {| ft_columns := ["H[1]"; "AR[2]"; "HBA[3]"];
     ft_rows := [("any", [Num 25; Num 75; Num 0]);
                 ("ILE-10", [Num 25; Num 0; Num 0]);
                 ("VAL-18", [Num 0; Num 75; Num 0]);
                 ("PHE-80", [Num 0; Num 50; Num 0])] |}.

Definition example_feature_colors : list (string * string) :=
  [("H", "#ffd32c"); ("AR", "#0000ff"); ("HBA", "#ff0000")].

(** A table whose frames are numbered from 5. *)
Definition example_offset_frames : DataFrame :=
  {| index := [5; 6; 7];
     columns := [("ILE-10", [Num 0; Num 1; Num 0])] |}.

Definition example_offset_world : world :=
  {| heap := <[0%nat := example_offset_frames]> ∅; trace := [] |}.

(** Distances whose sums round: in doubles [1e16 + 1 - 1e16] is 0. *)
Definition example_rounding : DataFrame :=
  {| index := [0; 1; 2];
     columns := [("ILE-10", [Num 10000000000000000; Num 1; Num (-10000000000000000)]);
                 ("VAL-18", [Num (1 # 2); Num 0; Num 0])] |}.

(** Distances that are all the same whole number. *)
Definition example_flat_world : world :=
  {| heap := <[0%nat := example_superfeatures]>
               (<[1%nat := example_occurrences]>
                  (<[2%nat := {| index := [0; 1];
                                 columns := [("ILE-10", [Num 3; Num 3])] |}]> ∅));
     trace := [] |}.

(** Closed goals over the examples are settled by evaluation. *)
Ltac by_evaluation := apply (bool_decide_unpack _); vm_compute; exact I.

(** * Properties *)

(** ** Strided selection *)

Section stride.
Context {A : Type}.
Implicit Types l : list A.

Lemma stride_one l : stride 1 0 l = l.
Proof. induction l as [|x l IH]; simpl; [done|]. by rewrite IH. Qed.

Lemma stride_Forall2 {B} (P : A → B → Prop) step skip l (k : list B) :
  Forall2 P l k → Forall2 P (stride step skip l) (stride step skip k).
Proof.
  intros H. revert skip. induction H as [|x y l k Hxy _ IH]; intros skip; simpl.
  - constructor.
  - destruct skip; [constructor|]; auto.
Qed.

Lemma strided_one start stop l :
  strided start stop 1 l = take (stop - start) (drop start l).
Proof. unfold strided. apply stride_one. Qed.

Lemma strided_Forall2 {B} (P : A → B → Prop) start stop step l (k : list B) :
  Forall2 P l k → Forall2 P (strided start stop step l) (strided start stop step k).
Proof. intros. by apply stride_Forall2, Forall2_take, Forall2_drop. Qed.

(** Nothing is selected when the range is empty or starts past the end. *)
Lemma strided_nil start stop step l :
  (stop ≤ start ∨ length l ≤ start)%nat → strided start stop step l = [].
Proof.
  intros [H|H]; unfold strided.
  - by replace (stop - start)%nat with 0%nat by lia.
  - by rewrite drop_ge, take_nil.
Qed.

End stride.

(** ** Positional selection over a frame index *)

Lemma mapM_Ok {A B} (f : A → result B) (l : list A) (k : list B) :
  Forall2 (λ x y, f x = Ok y) l k → mapM f l = Ok k.
Proof.
  induction 1 as [|x y l k Hxy _ IH]; simpl; [done|].
  rewrite Hxy. simpl. by rewrite IH.
Qed.

Lemma iloc_at_Ok {A} (l : list A) (n : nat) (p : Z) (x : A) :
  0 ≤ p → l !! Z.to_nat p = Some x → iloc_at l n p = Ok x.
Proof.
  intros Hp Hx. unfold iloc_at.
  assert ((p <? 0) = false) as Hlt by by apply Z.ltb_ge.
  rewrite Hlt. cbv zeta. rewrite Hlt.
  by rewrite Hx.
Qed.

(** In a table whose rows are labelled [0 .. n-1], the label of a row is its
    position. *)
Lemma range_index_Forall2 {A} (l : list A) :
  Forall2 (λ p x, 0 ≤ p ∧ l !! Z.to_nat p = Some x)
          (seqZ 0 (Z.of_nat (length l))) l.
Proof.
  apply Forall2_same_length_lookup_2.
  - rewrite length_seqZ. lia.
  - intros i p x Hp Hx. apply lookup_seqZ in Hp as [-> ?].
    split; [lia|]. by rewrite Z.add_0_l, Nat2Z.id.
Qed.

Lemma iloc_strided_range {A} (l : list A) (start stop step : nat) :
  mapM (iloc_at l (length l))
       (strided start stop step (seqZ 0 (Z.of_nat (length l))))
  = Ok (strided start stop step l).
Proof.
  apply mapM_Ok.
  eapply Forall2_impl; [apply strided_Forall2, range_index_Forall2|].
  intros p x [? ?]. by apply iloc_at_Ok.
Qed.

(** ** Well-formed tables *)

Lemma df_iloc_strided df start stop step :
  index df = seqZ 0 (Z.of_nat (shape0 df)) →
  Forall (λ c, length c.2 = shape0 df) (columns df) →
  df_iloc df (strided start stop step (index df)) = Ok (select_rows start stop step df).
Proof.
  intros Hix Hrect. unfold df_iloc, shape0 in *.
  assert (strided start stop step (index df)
          = strided start stop step (seqZ 0 (Z.of_nat (length (index df))))) as ->
    by by rewrite <-Hix.
  rewrite iloc_strided_range. simpl.
  erewrite mapM_Ok; [done|].
  apply Forall2_fmap_r, Forall_Forall2_diag.
  eapply Forall_impl; [exact Hrect|]. intros [name cells] Hlen; simpl in *.
  rewrite <-Hlen. by rewrite iloc_strided_range.
Qed.

(** ** Sorting the columns by their sums *)

Lemma Qle_bool_total (x y : Q) : Qle_bool x y = true ∨ Qle_bool y x = true.
Proof.
  rewrite !Qle_bool_iff. destruct (Qlt_le_dec x y) as [H|H]; [left|right]; [|done].
  by apply Qlt_le_weak.
Qed.

#[local] Instance by_sum_desc_trans : Transitive by_sum_desc.
Proof.
  intros [? [x|]] [? [y|]] [? [z|]]; unfold by_sum_desc; simpl; try done.
  rewrite !Is_true_true, !Qle_bool_iff. intros ? ?. by eapply Qle_trans.
Qed.

#[local] Instance by_sum_desc_total : Total by_sum_desc.
Proof.
  intros [? [x|]] [? [y|]]; unfold by_sum_desc; simpl; auto.
  rewrite !Is_true_true. destruct (Qle_bool_total x y); auto.
Qed.

Lemma insert_desc_Permutation e l : insert_desc e l ≡ₚ e :: l.
Proof.
  induction l as [|x l IH]; simpl; [done|].
  destruct (sum_geb e.2 x.2); [done|]. rewrite IH. apply Permutation_swap.
Qed.

Lemma insertion_sort_Permutation l : foldr insert_desc [] l ≡ₚ l.
Proof.
  induction l as [|e l IH]; simpl; [done|].
  by rewrite insert_desc_Permutation, IH.
Qed.

Lemma insert_desc_sorted e l :
  StronglySorted by_sum_desc l → StronglySorted by_sum_desc (insert_desc e l).
Proof.
  induction 1 as [|x l Hl IH Hx]; simpl; [by repeat constructor|].
  destruct (sum_geb e.2 x.2) eqn:Hex.
  - constructor; [by constructor|]. constructor.
    + unfold by_sum_desc. by rewrite Hex.
    + eapply Forall_impl; [exact Hx|]. intros y Hxy.
      transitivity x; [|done]. unfold by_sum_desc. by rewrite Hex.
  - constructor; [done|].
    rewrite insert_desc_Permutation. constructor; [|done].
    destruct (total by_sum_desc x e) as [?|Hge]; [done|].
    unfold by_sum_desc in Hge. by rewrite Hex in Hge.
Qed.

Lemma insertion_sort_sorted l : StronglySorted by_sum_desc (foldr insert_desc [] l).
Proof.
  induction l as [|e l IH]; simpl; [constructor|]. by apply insert_desc_sorted.
Qed.

Lemma sort_values_desc_Permutation s : sort_values_desc s ≡ₚ s.
Proof.
  unfold sort_values_desc. rewrite insertion_sort_Permutation.
  rewrite <-(filter_app_complement (λ e, isna e.2 = false) s) at 3.
  f_equiv. apply reflexive_eq, list_filter_iff.
  intros [? [?|]]; simpl; naive_solver.
Qed.

Lemma sort_values_desc_sorted s : StronglySorted by_sum_desc (sort_values_desc s).
Proof.
  unfold sort_values_desc. apply StronglySorted_app_2.
  - intros a b _ [Hb _]%list_elem_of_filter.
    unfold by_sum_desc. destruct a as [? [?|]], b as [? [?|]]; simpl in *; done.
  - apply insertion_sort_sorted.
  - induction s as [|[? [?|]] s IH]; [constructor| |].
    + by rewrite filter_cons_False by done.
    + rewrite filter_cons_True by done. constructor; [done|].
      apply Forall_forall. intros [? c] [Hc _]%list_elem_of_filter.
      unfold by_sum_desc. by destruct c.
Qed.

Lemma sorted_column_names_Permutation df :
  sorted_column_names df ≡ₚ column_names df.
Proof.
  unfold sorted_column_names, df_apply_sum, column_names.
  rewrite sort_values_desc_Permutation. by rewrite <-list_fmap_compose.
Qed.

Lemma df_getitem_sorted df : df_getitem df (sorted_column_names df) = Ok (reorder df).
Proof.
  unfold df_getitem.
  erewrite mapM_Ok; [done|].
  apply Forall2_fmap_r, Forall_Forall2_diag, Forall_forall.
  intros name Hin. rewrite sorted_column_names_Permutation in Hin.
  apply list_elem_of_fmap in Hin as [c [-> Hc]].
  simpl. destruct (filter _ (columns df)) eqn:E; [|done].
  assert (c ∈ filter (λ c', c'.1 = c.1) (columns df)) as Hcf
    by by apply list_elem_of_filter.
  rewrite E in Hcf. by apply elem_of_nil in Hcf.
Qed.

Lemma filter_name_unique (l : list (string * list cell)) c :
  NoDup l.*1 → c ∈ l → filter (λ c', c'.1 = c.1) l = [c].
Proof.
  induction l as [|c0 l IH]; simpl; intros Hnd Hc.
  { by apply elem_of_nil in Hc. }
  apply NoDup_cons in Hnd as [Hc0 Hnd].
  apply elem_of_cons in Hc as [->|Hc].
  - rewrite filter_cons_True by done. f_equal.
    apply elem_of_nil_inv. intros c' [Heq Hc']%list_elem_of_filter.
    apply Hc0. rewrite <-Heq. by apply list_elem_of_fmap_2.
  - rewrite filter_cons_False; [by apply IH|].
    intros Heq. apply Hc0. rewrite Heq. by apply list_elem_of_fmap_2.
Qed.

Lemma pick_columns_elem_of l names c : c ∈ pick_columns l names → c ∈ l.
Proof.
  unfold pick_columns. induction names as [|name names IH]; simpl.
  - by intros ?%elem_of_nil.
  - intros [[_ ?]%list_elem_of_filter | ?]%elem_of_app; auto.
Qed.

(** Picking the columns named by a sub-series of the column sums gives back
    the columns whose sums are that series. *)
Lemma pick_columns_sums (l : list (string * list cell)) (es : list (string * cell)) :
  NoDup l.*1 →
  Forall (λ e, e ∈ (λ c, (c.1, py_sum c.2)) <$> l) es →
  (λ c, (c.1, py_sum c.2)) <$> pick_columns l es.*1 = es.
Proof.
  intros Hnd. unfold pick_columns.
  induction 1 as [|e es [c [-> Hc]]%list_elem_of_fmap _ IH]; simpl; [done|].
  rewrite (filter_name_unique l c Hnd Hc). simpl. f_equal. exact IH.
Qed.

Lemma reorder_sums df :
  NoDup (column_names df) →
  df_apply_sum (reorder df) = sort_values_desc (df_apply_sum df).
Proof.
  intros Hnd. unfold df_apply_sum at 1, reorder, sorted_column_names; simpl.
  apply pick_columns_sums; [done|].
  apply Forall_forall. intros e He.
  by rewrite sort_values_desc_Permutation in He.
Qed.

Lemma reorder_names df :
  NoDup (column_names df) → column_names (reorder df) = sorted_column_names df.
Proof.
  intros Hnd. unfold sorted_column_names. rewrite <-reorder_sums by done.
  unfold column_names, df_apply_sum. by rewrite <-list_fmap_compose.
Qed.

Lemma reorder_frames_table df : frames_table df → frames_table (reorder df).
Proof.
  intros (Hix & Hrect & Hnd). split_and!.
  - done.
  - apply Forall_forall. intros c Hc%pick_columns_elem_of.
    by eapply Forall_forall in Hrect.
  - rewrite reorder_names by done.
    by rewrite sorted_column_names_Permutation.
Qed.

(** ** Recoding occurrences *)

Lemma recode_absent i q : Qeq_bool q 0 = true → recode i (Num q) = NA.
Proof. intros H. unfold recode. simpl. by rewrite decide_True. Qed.

Lemma recode_present i q :
  Qeq_bool q 1 = true → recode i (Num q) = Num (inject_Z (Z.of_nat i + 1)).
Proof.
  intros H. unfold recode. simpl.
  assert (Qeq_bool q 0 = false) as H0.
  { apply not_true_is_false. intros H0.
    apply Qeq_bool_iff in H, H0. rewrite H in H0. done. }
  rewrite decide_False by (by rewrite H0). simpl. by rewrite decide_True.
Qed.

Lemma recode_other i q :
  Qeq_bool q 0 = false → Qeq_bool q 1 = false → recode i (Num q) = Num q.
Proof.
  intros H0 H1. unfold recode. simpl.
  rewrite decide_False by (by rewrite H0). simpl.
  rewrite decide_False by (by rewrite H1). done.
Qed.

(** ** The dict built by the loop *)

Lemma dict_set_fresh {V} (d : list (string * V)) k v :
  k ∉ d.*1 → dict_set d k v = d ++ [(k, v)].
Proof.
  induction d as [|[k' v'] d IH]; simpl; [done|].
  intros [? ?]%not_elem_of_cons. rewrite decide_False by done. by rewrite IH.
Qed.

Lemma foldl_dict_set {V W} (f : nat → W → V) (acc : list (string * V))
    (es : list (nat * (string * W))) :
  NoDup (acc.*1 ++ (es.*2).*1) →
  foldl (λ d '(i, (name, data)), dict_set d name (f i data)) acc es
  = acc ++ ((λ e, (e.2.1, f e.1 e.2.2)) <$> es).
Proof.
  revert acc. induction es as [|[i [name data]] es IH]; intros acc Hnd; simpl.
  { by rewrite app_nil_r. }
  simpl in Hnd. rewrite dict_set_fresh.
  - rewrite IH; [by rewrite <-app_assoc|].
    rewrite fmap_app. simpl. by rewrite <-app_assoc.
  - apply NoDup_app in Hnd as (_ & Hnd & _). intros Hin.
    apply (Hnd _ Hin). by left.
Qed.

(** ** Running the table preparation *)

Lemma islice_valid {A} (l : list A) start stop step :
  0 ≤ start ≤ sys_maxsize → 0 ≤ stop ≤ sys_maxsize → 1 ≤ step ≤ sys_maxsize →
  islice l start stop step
  = Ok (strided (Z.to_nat start) (Z.to_nat stop) (Z.to_nat step) l).
Proof.
  intros [? ?] [? ?] [? ?]. unfold islice.
  repeat match goal with
         | |- context [?a <=? ?b] => destruct (Z.leb_spec a b); [|lia]
         end.
  done.
Qed.

Lemma islice_invalid {A} (l : list A) start stop step :
  ¬ (0 ≤ start ≤ sys_maxsize ∧ 0 ≤ stop ≤ sys_maxsize ∧ 1 ≤ step ≤ sys_maxsize) →
  islice l start stop step = Raise ValueError.
Proof.
  intros Hn. unfold islice.
  repeat match goal with
         | |- context [?a <=? ?b] => destruct (Z.leb_spec a b)
         end; simpl; try done.
  exfalso. apply Hn. lia.
Qed.

Lemma load_run w r df : heap w !! r = Some df → load r w = (Ok df, w).
Proof. intros H. unfold load. by rewrite H. Qed.

(** A new object gets a reference no object had, and changes no other. *)
Lemma new_run df w :
  ∃ r w', new df w = (Ok r, w')
    ∧ heap w !! r = None
    ∧ heap w' = <[r := df]> (heap w)
    ∧ trace w' = trace w.
Proof.
  eexists _, _. split; [done|]. split_and!; [|done..].
  apply not_elem_of_dom, is_fresh.
Qed.

Lemma slice_run w r df range step :
  heap w !! r = Some df →
  index df = seqZ 0 (Z.of_nat (shape0 df)) →
  Forall (λ c, length c.2 = shape0 df) (columns df) →
  _slice_dataframe_rows r range step w
  = if decide (valid_slice df range step) then new (sliced df range step) w
    else (Raise ValueError, w).
Proof.
  intros Hr Hix Hrect. unfold _slice_dataframe_rows.
  unfold mbind, M_bind. rewrite (load_run _ _ _ Hr). unfold lift.
  fold (ix_stop df range).
  destruct (decide (valid_slice df range step)) as [(H1 & H2 & H3)|Hn].
  - rewrite islice_valid by done. by rewrite df_iloc_strided.
  - by rewrite islice_invalid.
Qed.

Lemma enumerate_snd {A} (l : list A) : (enumerate l).*2 = l.
Proof.
  unfold enumerate. rewrite fmap_imap.
  rewrite (imap_ext _ (const id)) by done.
  by rewrite imap_const, list_fmap_id.
Qed.

Lemma recode_loop d :
  NoDup (column_names d) →
  pd_DataFrame
    (foldl (λ d '(i, (name, data)),
              dict_set d name
                (series_replace data [0%Q; 1%Q] [NA; Num (inject_Z (Z.of_nat i + 1))]))
           [] (enumerate (df_items d)))
  = recoded d.
Proof.
  intros Hnd.
  rewrite (foldl_dict_set
             (λ i data, series_replace data [0%Q; 1%Q]
                          [NA; Num (inject_Z (Z.of_nat i + 1))])).
  2:{ simpl. rewrite enumerate_snd. unfold df_items.
      by rewrite <-list_fmap_compose. }
  simpl. unfold enumerate, df_items, pd_DataFrame, recoded.
  rewrite fmap_imap, imap_fmap. f_equal.
  - by destruct (columns d).
  - rewrite fmap_imap. by apply imap_ext.
Qed.

(** The straight-line behaviour of the preparation on a well-formed table:
    three new tables (two when the values are not occurrences), or a
    [ValueError] from [islice] once the columns are reordered. *)
Lemma prepare_run w r df range step occ :
  heap w !! r = Some df →
  frames_table df →
  _prepare_dataframe_for_plotting r range step occ w
  = (r1 ← new (reorder df);
     if decide (valid_slice df range step) then
       r2 ← new (sliced (reorder df) range step);
       if occ then new (recoded (sliced (reorder df) range step)) else mret r2
     else raise ValueError) w.
Proof.
  intros Hr Hft. pose proof (reorder_frames_table _ Hft) as (Hix & Hrect & Hnd).
  unfold _prepare_dataframe_for_plotting, mbind, M_bind, lift, raise.
  rewrite (load_run _ _ _ Hr).
  fold (sorted_column_names df). rewrite df_getitem_sorted.
  destruct (new_run (reorder df) w) as (r1 & w1 & -> & Hfresh & Hh1 & Ht1).
  assert (heap w1 !! r1 = Some (reorder df)) as Hr1
    by by rewrite Hh1, lookup_insert_eq.
  rewrite (slice_run _ _ _ _ _ Hr1 Hix Hrect).
  assert (valid_slice (reorder df) range step ↔ valid_slice df range step) as Hv by done.
  destruct (decide (valid_slice df range step)) as [Hvalid|Hinvalid].
  - rewrite decide_True by by apply Hv.
    destruct (new_run (sliced (reorder df) range step) w1)
      as (r2 & w2 & -> & _ & Hh2 & _).
    destruct occ; [|done].
    rewrite (load_run w2 r2 (sliced (reorder df) range step))
      by by rewrite Hh2, lookup_insert_eq.
    rewrite recode_loop; [done|].
    unfold sliced, select_rows, column_names; simpl.
    by rewrite <-list_fmap_compose.
  - by rewrite decide_False by by rewrite Hv.
Qed.

Lemma prepare_returns w r df range step occ :
  heap w !! r = Some df →
  frames_table df →
  valid_slice df range step →
  ∃ r' w',
    _prepare_dataframe_for_plotting r range step occ w = (Ok r', w')
    ∧ heap w' !! r' = Some (prepared df range step occ)
    ∧ heap w !! r' = None
    ∧ heap w ⊆ heap w'
    ∧ trace w' = trace w.
Proof.
  intros Hr Hft Hvalid. rewrite (prepare_run _ _ _ _ _ _ Hr Hft).
  unfold mbind, M_bind, mret, M_ret, prepared.
  destruct (new_run (reorder df) w) as (r1 & w1 & -> & Hf1 & Hh1 & Ht1).
  rewrite decide_True by done.
  destruct (new_run (sliced (reorder df) range step) w1)
    as (r2 & w2 & -> & Hf2 & Hh2 & Ht2).
  assert (heap w ⊆ heap w1) as Hs1 by (rewrite Hh1; by apply insert_subseteq).
  assert (heap w1 ⊆ heap w2) as Hs2 by (rewrite Hh2; by apply insert_subseteq).
  destruct occ.
  - destruct (new_run (recoded (sliced (reorder df) range step)) w2)
      as (r3 & w3 & -> & Hf3 & Hh3 & Ht3).
    assert (heap w2 ⊆ heap w3) as Hs3 by (rewrite Hh3; by apply insert_subseteq).
    eexists _, _. split; [done|]. split_and!.
    + by rewrite Hh3, lookup_insert_eq.
    + eapply lookup_weaken_None; [exact Hf3|]. by do 2 (etrans; [eassumption|]).
    + by do 2 (etrans; [eassumption|]).
    + congruence.
  - eexists _, _. split; [done|]. split_and!.
    + by rewrite Hh2, lookup_insert_eq.
    + by eapply lookup_weaken_None.
    + by etrans.
    + congruence.
Qed.

Lemma prepare_raises w r df range step occ :
  heap w !! r = Some df →
  frames_table df →
  ¬ valid_slice df range step →
  ∃ w', _prepare_dataframe_for_plotting r range step occ w = (Raise ValueError, w')
        ∧ heap w ⊆ heap w'.
Proof.
  intros Hr Hft Hinvalid. rewrite (prepare_run _ _ _ _ _ _ Hr Hft).
  unfold mbind, M_bind.
  destruct (new_run (reorder df) w) as (r1 & w1 & -> & Hf1 & Hh1 & Ht1).
  rewrite decide_False by done. eexists. split; [done|].
  rewrite Hh1. by apply insert_subseteq.
Qed.

(** ** Shape of the prepared table *)

Lemma length_strided_eq {A B} (l : list A) (k : list B) start stop step :
  length l = length k →
  length (strided start stop step l) = length (strided start stop step k).
Proof.
  intros Hlen. eapply (Forall2_length (λ _ _, True)).
  apply strided_Forall2. by apply Forall2_true.
Qed.

Lemma reorder_columns_nil df :
  NoDup (column_names df) → columns (reorder df) = [] → columns df = [].
Proof.
  intros Hnd Hnil. apply reorder_names in Hnd. unfold column_names in Hnd.
  rewrite Hnil in Hnd. simpl in Hnd.
  pose proof (sorted_column_names_Permutation df) as Hp.
  rewrite <-Hnd in Hp. apply Permutation_nil_l in Hp.
  symmetry in Hp. by apply fmap_nil_inv in Hp.
Qed.

Lemma prepared_index df range step occ :
  frames_table df → occ = false ∨ columns df ≠ [] →
  index (prepared df range step occ)
  = strided (Z.to_nat range.1) (Z.to_nat (ix_stop df range)) (Z.to_nat step) (index df).
Proof.
  intros (_ & _ & Hnd) Hocc. unfold prepared.
  destruct occ; [|done]. destruct Hocc as [?|Hne]; [done|].
  unfold recoded, sliced, select_rows; cbn [index columns].
  destruct (columns (reorder df)) eqn:E; [|done].
  by apply reorder_columns_nil in E.
Qed.

Lemma prepared_rectangular df range step occ :
  frames_table df → occ = false ∨ columns df ≠ [] →
  Forall (λ c, length c.2 = shape0 (prepared df range step occ))
         (columns (prepared df range step occ)).
Proof.
  intros Hft Hocc. unfold shape0. rewrite prepared_index by done.
  apply reorder_frames_table in Hft as (_ & Hrect & _).
  assert (Forall (λ c, length c.2
            = length (strided (Z.to_nat range.1) (Z.to_nat (ix_stop df range))
                              (Z.to_nat step) (index df)))
            (columns (sliced (reorder df) range step))) as Hsl.
  { unfold sliced, select_rows; simpl. apply Forall_fmap.
    eapply Forall_impl; [exact Hrect|]. intros c Hc; simpl.
    by apply length_strided_eq. }
  unfold prepared. destruct occ; [|done].
  unfold recoded; simpl. apply Forall_forall. intros c Hc.
  apply list_elem_of_lookup in Hc as [i Hi].
  rewrite list_lookup_imap in Hi.
  destruct (_ !! i) as [c0|] eqn:E; simplify_eq/=.
  rewrite length_fmap.
  eapply Forall_forall in Hsl; [exact Hsl|]. by eapply list_elem_of_lookup_2.
Qed.

Lemma take_drop_seqZ (s k : nat) (n : Z) :
  take k (drop s (seqZ 0 n))
  = seqZ (Z.of_nat s) (Z.of_nat k `min` (n - Z.of_nat s)).
Proof.
  apply list_eq. intros i. destruct (decide (i < k)%nat).
  - rewrite lookup_take_lt, lookup_drop by done.
    destruct (decide (Z.of_nat (s + i) < n)).
    + rewrite !lookup_seqZ_lt by lia. f_equal. lia.
    + by rewrite !lookup_seqZ_ge by lia.
  - rewrite lookup_take_ge, lookup_seqZ_ge by lia. done.
Qed.

Lemma seqZ_clip m a b : a = b ∨ (a ≤ 0 ∧ b ≤ 0) → seqZ m a = seqZ m b.
Proof. intros [->|[? ?]]; [done|]. by rewrite !seqZ_nil. Qed.

(** An open end selects as the index of the last row does. *)
Lemma strided_open_end {A} (l : list A) (n start step : nat) :
  length l = n →
  strided start (n + 1) step l = strided start n step l.
Proof.
  intros Hlen. unfold strided.
  rewrite !take_ge by (rewrite length_drop; lia). done.
Qed.

Lemma prepare_open_end w r df start step occ :
  heap w !! r = Some df →
  frames_table df →
  valid_slice df (start, None) step →
  _prepare_dataframe_for_plotting r (start, None) step occ w
  = _prepare_dataframe_for_plotting
      r (start, Some (Z.of_nat (shape0 df) - 1)) step occ w.
Proof.
  intros Hr Hft Hvalid. rewrite !(prepare_run _ _ _ _ _ _ Hr Hft).
  assert (valid_slice df (start, Some (Z.of_nat (shape0 df) - 1)) step) as Hvalid'.
  { destruct Hvalid as (? & ? & ?). unfold valid_slice, ix_stop in *; simpl in *.
    lia. }
  assert (sliced (reorder df) (start, None) step
          = sliced (reorder df) (start, Some (Z.of_nat (shape0 df) - 1)) step)
    as Hsame.
  { apply reorder_frames_table in Hft as (_ & Hrect & _).
    unfold sliced, select_rows, ix_stop; cbn [fst snd index columns].
    change (shape0 (reorder df)) with (shape0 df) in *.
    replace (Z.to_nat (Z.of_nat (shape0 df) + 1)) with (shape0 df + 1)%nat by lia.
    replace (Z.to_nat (Z.of_nat (shape0 df) - 1 + 1)) with (shape0 df) by lia.
    f_equal.
    - by apply strided_open_end.
    - apply Forall_fmap_ext_1. eapply Forall_impl; [exact Hrect|].
      intros c Hc; simpl in *. f_equal. by apply strided_open_end. }
  unfold mbind, M_bind. destruct (new (reorder df) w) as [[r1|e] w1]; [|done].
  rewrite !decide_True by done. by rewrite Hsame.
Qed.

(** * The table-preparation utility *)

(** C2.  On a table of frames with at least one column (or when the values
    are not occurrences), a frame range accepted by [islice] and step size 1
    give the rows [start .. min(end, n-1)]: [end - start + 1] rows clipped to
    the rows the table has.  With [end = None] the last row is [n - 1]: every
    row from [start] through the last one. *)
Theorem prepare_row_count_step_one w r df start end_ occ :
  heap w !! r = Some df →
  frames_table df →
  occ = false ∨ columns df ≠ [] →
  valid_slice df (start, end_) 1 →
  let n := Z.of_nat (shape0 df) in
  let last := match end_ with Some e => e `min` (n - 1) | None => n - 1 end in
  ∃ r' w' out,
    _prepare_dataframe_for_plotting r (start, end_) 1 occ w = (Ok r', w')
    ∧ heap w' !! r' = Some out
    ∧ index out = seqZ start (last - start + 1)
    ∧ Z.of_nat (shape0 out) = 0 `max` (last - start + 1)
    ∧ Forall (λ c, length c.2 = shape0 out) (columns out)
    ∧ (end_ = None →
       _prepare_dataframe_for_plotting r (start, None) 1 occ w
       = _prepare_dataframe_for_plotting r (start, Some (n - 1)) 1 occ w).
Proof.
  intros Hr Hft Hocc Hvalid n last.
  destruct (prepare_returns _ _ _ _ _ occ Hr Hft Hvalid)
    as (r' & w' & Hrun & Hout & _).
  assert (index (prepared df (start, end_) 1 occ) = seqZ start (last - start + 1))
    as Hindex.
  { rewrite prepared_index by done.
    destruct Hft as (Hix & _). rewrite Hix. fold n.
    rewrite strided_one, take_drop_seqZ.
    destruct Hvalid as ([Hstart _] & [Hstop _] & _).
    unfold ix_stop in *. simpl in *.
    rewrite Z2Nat.id by done. apply seqZ_clip.
    subst last. fold n in Hstop |- *. destruct end_ as [e|]; lia. }
  exists r', w', (prepared df (start, end_) 1 occ). split_and!; [done..| | |].
  - unfold shape0. rewrite Hindex, length_seqZ. lia.
  - by apply prepared_rectangular.
  - intros ->. by apply prepare_open_end.
Qed.

(** Column [i] of the prepared table: the column of the input that the sort
    puts at position [i], sliced, and recoded with [i] when the values are
    occurrences. *)
Lemma prepared_column df range step occ i name cells' :
  frames_table df →
  columns (prepared df range step occ) !! i = Some (name, cells') →
  ∃ cells,
    (name, cells) ∈ columns df
    ∧ sorted_column_names df !! i = Some name
    ∧ cells' = (if occ then recode i else id)
                 <$> strided (Z.to_nat range.1) (Z.to_nat (ix_stop df range))
                             (Z.to_nat step) cells.
Proof.
  intros (_ & _ & Hnd) Hi.
  assert (∃ c, columns (reorder df) !! i = Some c ∧ name = c.1
               ∧ cells' = (if occ then recode i else id)
                   <$> strided (Z.to_nat range.1) (Z.to_nat (ix_stop df range))
                               (Z.to_nat step) c.2) as (c & Hc & -> & ->).
  { unfold prepared in Hi. destruct occ.
    - unfold recoded in Hi; cbn [columns] in Hi.
      rewrite list_lookup_imap in Hi.
      unfold sliced, select_rows in Hi; cbn [columns] in Hi.
      rewrite list_lookup_fmap in Hi.
      destruct (columns (reorder df) !! i) as [c|]; simplify_eq/=. eauto.
    - unfold sliced, select_rows in Hi; cbn [columns] in Hi.
      rewrite list_lookup_fmap in Hi.
      destruct (columns (reorder df) !! i) as [c|]; simplify_eq/=.
      exists c. by rewrite list_fmap_id. }
  exists c.2. split_and!; [|  |done].
  - apply list_elem_of_lookup_2 in Hc. apply pick_columns_elem_of in Hc.
    by destruct c.
  - rewrite <-reorder_names by done. unfold column_names.
    by rewrite list_lookup_fmap, Hc.
Qed.

Lemma prepared_names df range step occ :
  frames_table df →
  column_names (prepared df range step occ) = sorted_column_names df.
Proof.
  intros (_ & _ & Hnd). rewrite <-reorder_names by done.
  unfold prepared, column_names. destruct occ.
  - unfold recoded, sliced, select_rows; cbn [columns].
    rewrite fmap_imap, imap_fmap.
    rewrite (imap_ext _ (const fst)) by done. by rewrite imap_const.
  - unfold sliced, select_rows; cbn [columns]. by rewrite <-list_fmap_compose.
Qed.

(** C6.  A table of 10 frames and 2 columns, frame range [[0, None]], step
    size 2: the rows selected are those of the frames 0, 2, 4, 6 and 8, five
    in all, in every column. *)
Theorem prepare_ten_frames_step_two w r df occ :
  heap w !! r = Some df →
  frames_table df →
  shape0 df = 10%nat →
  length (columns df) = 2%nat →
  ∃ r' w' out,
    _prepare_dataframe_for_plotting r (0, None) 2 occ w = (Ok r', w')
    ∧ heap w' !! r' = Some out
    ∧ index out = [0; 2; 4; 6; 8]
    ∧ length (columns out) = 2%nat
    ∧ ∀ i name cells', columns out !! i = Some (name, cells') →
        ∃ cells, (name, cells) ∈ columns df
          ∧ Forall2 (λ p c', (if occ then recode i else id) <$> cells !! p = Some c')
                    [0; 2; 4; 6; 8]%nat cells'.
Proof.
  intros Hr Hft Hrows Hcols.
  assert (valid_slice df (0, None) 2) as Hvalid.
  { unfold valid_slice, ix_stop; simpl. rewrite Hrows. by vm_compute. }
  destruct (prepare_returns _ _ _ _ _ occ Hr Hft Hvalid)
    as (r' & w' & Hrun & Hout & _).
  assert (Z.to_nat (ix_stop df (0, None)) = 11%nat) as Hstop
    by (unfold ix_stop; simpl; rewrite Hrows; done).
  exists r', w', (prepared df (0, None) 2 occ). split_and!; [done..| | |].
  - rewrite prepared_index; [|done|].
    + rewrite Hstop. destruct Hft as (-> & _). by rewrite Hrows.
    + right. intros Hnil. by rewrite Hnil in Hcols.
  - pose proof (prepared_names df (0, None) 2 occ Hft) as Hn.
    apply (f_equal length) in Hn. unfold column_names in Hn.
    rewrite length_fmap in Hn. rewrite Hn.
    rewrite sorted_column_names_Permutation. unfold column_names.
    by rewrite length_fmap.
  - intros i name cells' Hi.
    destruct (prepared_column _ _ _ _ _ _ _ Hft Hi) as (cells & Hin & _ & ->).
    exists cells. split; [done|]. rewrite Hstop. simpl.
    destruct Hft as (_ & Hrect & _).
    eapply Forall_forall in Hrect; [|exact Hin]. simpl in Hrect.
    rewrite Hrows in Hrect.
    do 10 (destruct cells as [|? cells]; [by simpl in Hrect|]).
    destruct cells; [|by simpl in Hrect]. destruct occ; repeat constructor.
Qed.

(** A column of the recoded table, cell by cell. *)
Lemma recoded_column d i name cells :
  columns d !! i = Some (name, cells) →
  columns (recoded d) !! i = Some (name, recode i <$> cells)
  ∧ Forall2 (λ c c',
               match c with
               | Num q =>
                   (Qeq_bool q 1 = true → c' = Num (inject_Z (Z.of_nat i + 1)))
                   ∧ (Qeq_bool q 0 = true → c' = NA)
                   ∧ (Qeq_bool q 1 = false → Qeq_bool q 0 = false → c' = Num q)
               | NA => c' = NA
               end) cells (recode i <$> cells).
Proof.
  intros Hi. split.
  - unfold recoded; cbn [columns]. by rewrite list_lookup_imap, Hi.
  - apply Forall2_fmap_r, Forall_Forall2_diag, Forall_forall.
    intros [q|] _; [|done]. split_and!.
    + by apply recode_present.
    + by apply recode_absent.
    + intros. by apply recode_other.
Qed.

(** The column sums in plot order: a descending rearrangement of the series
    of column sums of the input table, missing sums last. *)
Lemma sorted_totals df :
  frames_table df →
  ∃ totals,
    totals ≡ₚ df_apply_sum df
    ∧ StronglySorted by_sum_desc totals
    ∧ sorted_column_names df = totals.*1.
Proof.
  intros _. exists (sort_values_desc (df_apply_sum df)). split_and!.
  - apply sort_values_desc_Permutation.
  - apply sort_values_desc_sorted.
  - done.
Qed.

(** The table the preparation returns, told from the input table alone. *)
Lemma prepared_is_prepared_from df range step occ :
  frames_table df → prepared_from df range step occ (prepared df range step occ).
Proof.
  intros Hft. destruct (sorted_totals df Hft) as (totals & Hperm & Hsorted & Hnames).
  exists totals. split_and!; [done..| | |].
  - by rewrite prepared_names.
  - destruct occ; [|by apply prepared_index; [|left]].
    destruct (columns df) as [|c cs] eqn:Hcols.
    + unfold prepared, recoded, sliced, select_rows, reorder, pick_columns.
      cbn [index columns]. unfold sorted_column_names, df_apply_sum.
      by rewrite Hcols.
    + apply prepared_index; [done|]. right. by rewrite Hcols.
  - intros i name cells' Hi.
    destruct (prepared_column _ _ _ _ _ _ _ Hft Hi) as (cells & Hin & _ & ->).
    by exists cells.
Qed.

(** C3.  Whatever the frame range and the step size, the preparation of a
    table of frames either returns a table or raises the [ValueError] of a
    range or step that [islice] rejects.  The columns of the returned table,
    taken with the sums of these columns over all rows of the input table,
    are in non-increasing order of sum (a sum that is missing comes last).
    The sums are the ones the program computes, cell after cell in
    doubles. *)
Theorem prepare_columns_sorted w r df range step occ :
  heap w !! r = Some df →
  frames_table df →
  match _prepare_dataframe_for_plotting r range step occ w with
  | (Ok r', w') =>
      valid_slice df range step
      ∧ ∃ out totals,
          heap w' !! r' = Some out
          ∧ totals ≡ₚ df_apply_sum df
          ∧ column_names out = totals.*1
          ∧ StronglySorted by_sum_desc totals
  | (Raise e, _) => e = ValueError ∧ ¬ valid_slice df range step
  end.
Proof.
  intros Hr Hft. destruct (decide (valid_slice df range step)) as [Hvalid|Hinvalid].
  - destruct (prepare_returns _ _ _ _ _ occ Hr Hft Hvalid)
      as (r' & w' & -> & Hout & _).
    split; [done|].
    destruct (sorted_totals df Hft) as (totals & Hperm & Hsorted & Hnames).
    exists (prepared df range step occ), totals. split_and!; [done..| |done].
    by rewrite prepared_names.
  - by destruct (prepare_raises _ _ _ _ _ occ Hr Hft Hinvalid) as (w' & -> & _).
Qed.


(** ** The input table is only read *)

Lemma only_creates_raise w e : only_creates w (Raise e) w.
Proof. split; [done|]. by intros r' [=]. Qed.

Lemma only_creates_new df w :
  only_creates w (new df w).1 (new df w).2.
Proof.
  destruct (new_run df w) as (r & w' & -> & Hfresh & Hh & _); simpl.
  split.
  - rewrite Hh. by apply insert_subseteq.
  - intros r' [= <-]. split; [done|]. by rewrite Hh, lookup_insert_eq.
Qed.

Lemma only_creates_trans w1 w2 w3 res :
  heap w1 ⊆ heap w2 → only_creates w2 res w3 → only_creates w1 res w3.
Proof.
  intros Hs [Hs' Hnew]. split; [by etrans|].
  intros r' Hr'. destruct (Hnew r' Hr') as [Hnone Hsome].
  split; [|done]. by eapply lookup_weaken_None.
Qed.

Lemma slice_only_creates w r range step :
  only_creates w (_slice_dataframe_rows r range step w).1
                 (_slice_dataframe_rows r range step w).2.
Proof.
  unfold _slice_dataframe_rows, mbind, M_bind, load, lift.
  destruct (heap w !! r) as [df|]; [|apply only_creates_raise].
  destruct (islice _ _ _ _) as [sel|]; [|apply only_creates_raise].
  destruct (df_iloc _ _) as [d|]; [|apply only_creates_raise].
  apply only_creates_new.
Qed.

Lemma prepare_only_creates w r range step occ :
  only_creates w (_prepare_dataframe_for_plotting r range step occ w).1
                 (_prepare_dataframe_for_plotting r range step occ w).2.
Proof.
  unfold _prepare_dataframe_for_plotting, mbind, M_bind, load, lift.
  destruct (heap w !! r) as [df|]; [|apply only_creates_raise].
  destruct (df_getitem _ _) as [d1|]; [|apply only_creates_raise].
  destruct (new_run d1 w) as (r1 & w1 & -> & Hf1 & Hh1 & _).
  assert (heap w ⊆ heap w1) as Hs1 by (rewrite Hh1; by apply insert_subseteq).
  pose proof (slice_only_creates w1 r1 range step) as Hslice.
  destruct (_slice_dataframe_rows r1 range step w1) as [[r2|e] w2]; simpl in *.
  - destruct occ.
    + destruct (heap w2 !! r2) as [d2|].
      * eapply only_creates_trans; [|apply only_creates_new].
        etrans; [exact Hs1|]. apply Hslice.
      * eapply only_creates_trans; [|apply only_creates_raise].
        etrans; [exact Hs1|]. apply Hslice.
    + by eapply only_creates_trans.
  - destruct Hslice as [Hs2 _]. split; [by etrans|]. by intros r' [=].
Qed.

(** C8.  Whatever the table, the frame range, the step size and the flag,
    and whether the preparation returns or raises: the input table is the
    same object with the same rows, columns and cells afterwards, as is
    every other table that existed; a returned table is an object that did
    not exist before the call, hence not the input. *)
Theorem prepare_input_unchanged w r df range step occ res w' :
  heap w !! r = Some df →
  _prepare_dataframe_for_plotting r range step occ w = (res, w') →
  heap w' !! r = Some df
  ∧ (∀ r0 d, heap w !! r0 = Some d → heap w' !! r0 = Some d)
  ∧ ∀ r', res = Ok r' → r' ≠ r ∧ heap w !! r' = None ∧ is_Some (heap w' !! r').
Proof.
  intros Hr Hrun.
  pose proof (prepare_only_creates w r range step occ) as [Hs Hnew].
  rewrite Hrun in Hs, Hnew; simpl in *. split_and!.
  - by eapply lookup_weaken.
  - intros r0 d Hd. by eapply lookup_weaken.
  - intros r' Hr'. destruct (Hnew r' Hr') as [Hnone Hsome].
    split_and!; [|done..]. intros ->. by rewrite Hr in Hnone.
Qed.

(** ** Empty selections *)

Lemma df_iloc_nil df :
  df_iloc df [] = Ok {| index := []; columns := (λ c, (c.1, [])) <$> columns df |}.
Proof.
  unfold df_iloc; simpl. erewrite mapM_Ok; [done|].
  apply Forall2_fmap_r, Forall_Forall2_diag, Forall_true. done.
Qed.

Lemma dict_set_Forall {V} (P : string * V → Prop) d k v :
  Forall P d → P (k, v) → Forall P (dict_set d k v).
Proof.
  intros Hd Hkv. induction Hd as [|[k' v'] d Hk' Hd IH]; simpl.
  - by constructor.
  - case_decide; constructor; auto.
Qed.

Lemma foldl_dict_set_Forall {V W} (P : string * V → Prop) (f : nat → W → V)
    (acc : list (string * V)) (es : list (nat * (string * W))) :
  Forall P acc →
  Forall (λ e, P (e.2.1, f e.1 e.2.2)) es →
  Forall P (foldl (λ d '(i, (name, data)), dict_set d name (f i data)) acc es).
Proof.
  intros Hacc Hes. revert acc Hacc.
  induction Hes as [|[i [name data]] es He _ IH]; intros acc Hacc; simpl; [done|].
  apply IH. by apply dict_set_Forall.
Qed.

(** Nothing is selected from a range that is empty or starts past the last
    row. *)
Lemma islice_nil {A} (l : list A) start stop step :
  0 ≤ start ≤ sys_maxsize → 0 ≤ stop ≤ sys_maxsize → 1 ≤ step ≤ sys_maxsize →
  stop ≤ start ∨ Z.of_nat (length l) ≤ start →
  islice l start stop step = Ok [].
Proof.
  intros ? ? ? Hempty. rewrite islice_valid by done.
  rewrite strided_nil; [done|]. lia.
Qed.

(** The preparation when [islice] selects no frame. *)
Lemma prepare_empty w r df range step occ :
  heap w !! r = Some df →
  islice (index df) range.1 (ix_stop df range) step = Ok [] →
  ∃ r' w' out,
    _prepare_dataframe_for_plotting r range step occ w = (Ok r', w')
    ∧ heap w' !! r' = Some out
    ∧ trace w' = trace w
    ∧ index out = []
    ∧ Forall (λ c, c.2 = []) (columns out).
Proof.
  intros Hr Hsel.
  unfold _prepare_dataframe_for_plotting, mbind, M_bind, lift.
  rewrite (load_run _ _ _ Hr).
  fold (sorted_column_names df). rewrite df_getitem_sorted.
  destruct (new_run (reorder df) w) as (r1 & w1 & -> & _ & Hh1 & Ht1).
  unfold _slice_dataframe_rows, mbind, M_bind, lift.
  rewrite (load_run w1 r1 (reorder df)) by by rewrite Hh1, lookup_insert_eq.
  change (index (reorder df)) with (index df).
  change (shape0 (reorder df)) with (shape0 df).
  fold (ix_stop df range). rewrite Hsel, df_iloc_nil.
  set (d2 := {| index := []; columns := _ |}).
  destruct (new_run d2 w1) as (r2 & w2 & -> & _ & Hh2 & Ht2).
  assert (heap w2 !! r2 = Some d2) as Hr2 by by rewrite Hh2, lookup_insert_eq.
  destruct occ.
  - rewrite (load_run _ _ _ Hr2).
    set (dict := foldl _ [] _).
    destruct (new_run (pd_DataFrame dict) w2) as (r3 & w3 & -> & _ & Hh3 & Ht3).
    assert (Forall (λ e : string * Series, s_index e.2 = [] ∧ s_values e.2 = [])
                   dict) as Hdict.
    { apply (foldl_dict_set_Forall _
               (λ i data, series_replace data [0%Q; 1%Q]
                            [NA; Num (inject_Z (Z.of_nat i + 1))])); [done|].
      apply Forall_forall. intros [i [name data]] Hin. simpl.
      apply (list_elem_of_fmap_2 snd) in Hin. rewrite enumerate_snd in Hin.
      apply list_elem_of_fmap in Hin as [c [[= -> ->] Hc]].
      apply list_elem_of_fmap in Hc as [c0 [-> _]]. done. }
    exists r3, w3, (pd_DataFrame dict). split_and!.
    + done.
    + by rewrite Hh3, lookup_insert_eq.
    + congruence.
    + unfold pd_DataFrame; simpl.
      destruct Hdict as [|[? ?] ? [? _] _]; done.
    + unfold pd_DataFrame; simpl. apply Forall_fmap.
      eapply Forall_impl; [exact Hdict|]. by intros [? ?] [_ ?].
  - exists r2, w2, d2. split_and!; [done|done|congruence|done|].
    apply Forall_fmap, Forall_true. done.
Qed.

(** C7.  When the strided selection of frames is empty, whatever the table,
    the preparation raises nothing and returns a table without rows: the
    index is empty and so is every column. *)
Theorem prepare_empty_selection w r df range step occ :
  heap w !! r = Some df →
  islice (index df) range.1 (ix_stop df range) step = Ok [] →
  ∃ r' w' out,
    _prepare_dataframe_for_plotting r range step occ w = (Ok r', w')
    ∧ heap w' !! r' = Some out
    ∧ index out = []
    ∧ Forall (λ c, c.2 = []) (columns out).
Proof.
  intros Hr Hsel.
  destruct (prepare_empty _ _ _ _ _ occ Hr Hsel)
    as (r' & w' & out & Hrun & Hout & _ & Hindex & Hcols).
  by exists r', w', out.
Qed.

(** For instance from a start past the last row. *)
Lemma prepare_start_past_last_row w r df start end_ step occ :
  heap w !! r = Some df →
  valid_slice df (start, end_) step →
  Z.of_nat (shape0 df) ≤ start →
  ∃ r' w' out,
    _prepare_dataframe_for_plotting r (start, end_) step occ w = (Ok r', w')
    ∧ heap w' !! r' = Some out
    ∧ index out = []
    ∧ Forall (λ c, c.2 = []) (columns out).
Proof.
  intros Hr (? & ? & ?) Hstart.
  destruct (prepare_empty w r df (start, end_) step occ Hr)
    as (r' & w' & out & Hrun & Hout & _ & Hindex & Hcols).
  { apply islice_nil; [done..|]. by right. }
  by exists r', w', out.
Qed.

(** * The name-normalization utility *)

Lemma validate_known d name w :
  name ∈ Dynophore.superfeatures d →
  Dynophore._raise_keyerror_if_invalid_superfeature_name d name w = (Ok (), w).
Proof.
  intros H. unfold Dynophore._raise_keyerror_if_invalid_superfeature_name.
  by rewrite decide_True.
Qed.

Lemma validate_unknown d name w :
  name ∉ Dynophore.superfeatures d →
  Dynophore._raise_keyerror_if_invalid_superfeature_name d name w
  = (Raise (KeyError (UnknownSuperfeature name)), w).
Proof.
  intros H. unfold Dynophore._raise_keyerror_if_invalid_superfeature_name.
  by rewrite decide_False.
Qed.

(** The validation loop stops at the first unknown name. *)
Lemma validate_all_known d names w :
  Forall (.∈ Dynophore.superfeatures d) names →
  for_ names (Dynophore._raise_keyerror_if_invalid_superfeature_name d) w = (Ok (), w).
Proof.
  induction 1 as [|name names Hname _ IH]; simpl; [done|].
  unfold mbind, M_bind. by rewrite validate_known.
Qed.

Lemma validate_first_unknown d names i bad w :
  list_find (.∉ Dynophore.superfeatures d) names = Some (i, bad) →
  for_ names (Dynophore._raise_keyerror_if_invalid_superfeature_name d) w
  = (Raise (KeyError (UnknownSuperfeature bad)), w).
Proof.
  revert i. induction names as [|name names IH]; intros i Hfind; [done|].
  simpl in *. unfold mbind, M_bind. case_decide as Hname.
  - simplify_eq. by rewrite validate_unknown.
  - rewrite validate_known by done.
    destruct (list_find _ names) as [[j y]|] eqn:E; simplify_eq/=. eauto.
Qed.

Lemma format_without_all d names w :
  ¬ contains_all names →
  _format_superfeature_names d names w
  = (for_ (requested names) (Dynophore._raise_keyerror_if_invalid_superfeature_name d);;
     mret (List (requested names))) w.
Proof.
  intros Hall. unfold _format_superfeature_names.
  destruct names as [s|l|l]; simpl in *.
  - by destruct (str_contains "all" s).
  - by rewrite bool_decide_eq_false_2.
  - by rewrite bool_decide_eq_false_2.
Qed.

(** C9.  A selector that mentions ["all"], as an element of the list or
    tuple or inside the single string, is answered with the literal
    ["all"], whatever names the dynophore knows: no name is validated, no
    lookup failure is raised, and nothing else happens. *)
Theorem format_all_short_circuit d names w :
  contains_all names →
  _format_superfeature_names d names w = (Ok (Str "all"), w).
Proof.
  intros Hall. unfold _format_superfeature_names.
  destruct names as [s|l|l]; simpl in *.
  - by rewrite Hall.
  - by rewrite bool_decide_eq_true_2.
  - by rewrite bool_decide_eq_true_2.
Qed.

(** C4, as amended.  For a selector that does not mention ["all"] (a single
    name without ["all"] in it, a list or tuple without the element
    ["all"]), an unknown name among those requested makes the utility raise
    the lookup failure, for the first unknown name in order; nothing has
    happened by then, and nothing the caller would do next happens.  The
    selector ["all"] is answered without raising. *)
Theorem format_raises_on_unknown d names name w :
  ¬ contains_all names →
  name ∈ requested names →
  name ∉ Dynophore.superfeatures d →
  (∃ i bad,
     list_find (.∉ Dynophore.superfeatures d) (requested names) = Some (i, bad)
     ∧ _format_superfeature_names d names w
       = (Raise (KeyError (UnknownSuperfeature bad)), w)
     ∧ ∀ B (k : selector → M B),
         (_format_superfeature_names d names ≫= k) w
         = (Raise (KeyError (UnknownSuperfeature bad)), w))
  ∧ _format_superfeature_names d (Str "all") w = (Ok (Str "all"), w).
Proof.
  intros Hall Hreq Hunknown. split; [|done].
  destruct (list_find (.∉ Dynophore.superfeatures d) (requested names))
    as [[i bad]|] eqn:Hfind.
  - exists i, bad. split; [done|].
    assert (_format_superfeature_names d names w
            = (Raise (KeyError (UnknownSuperfeature bad)), w)) as Hrun.
    { rewrite format_without_all by done. unfold mbind, M_bind.
      by rewrite (validate_first_unknown _ _ _ _ _ Hfind). }
    split; [done|]. intros B k. unfold mbind, M_bind. by rewrite Hrun.
  - apply list_find_None in Hfind.
    eapply Forall_forall in Hfind; [|exact Hreq]. by apply dec_stable in Hfind.
Qed.

(** * The occurrence rendering *)

Lemma all_missing_no_rows df :
  Forall (λ c, c.2 = []) (columns df) → all_missing df = true.
Proof.
  intros H. unfold all_missing. apply forallb_forall. intros c Hc.
  apply list_elem_of_In in Hc. eapply Forall_forall in H; [|exact Hc].
  by rewrite H.
Qed.

(** The occurrence rendering of one known superfeature draws the
    placeholder ticks, and no data, when no frame is selected. *)
Lemma envpartners_occurrences_placeholder d name range step w r df :
  str_contains "all" name = false →
  name ∈ Dynophore.superfeatures d →
  assoc (Dynophore.envpartners_occurrences d) name = Some r →
  heap w !! r = Some df →
  islice (index df) range.1 (ix_stop df range) step = Ok [] →
  ∃ w',
    envpartners_occurrences d (Str name) range step w = (Ok (), w')
    ∧ trace w' = trace w ++ [Subplots 1 1;
                              SetTitle (0, 0)%nat name;
                              GetTable "envpartners_occurrences" name;
                              PlaceholderTicks (0, 0)%nat].
Proof.
  intros Hall Hknown Hassoc Hr Hsel. unfold envpartners_occurrences.
  unfold mbind at 1, M_bind at 1.
  rewrite format_without_all by (simpl; by rewrite Hall).
  unfold mbind at 1, M_bind at 1. simpl.
  unfold mbind at 1, M_bind at 1. rewrite validate_known by done.
  unfold py_len. simpl. unfold get_table, mbind, M_bind, emit. simpl.
  rewrite Hassoc. simpl.
  match goal with
  | |- context [_prepare_dataframe_for_plotting r range step true ?w1] =>
      destruct (prepare_empty w1 r df range step true Hr Hsel)
        as (r' & w' & out & -> & Hout & Htrace & _ & Hcols)
  end.
  rewrite (load_run _ _ _ Hout). rewrite all_missing_no_rows by done.
  eexists. split; [done|]. simpl. rewrite Htrace. simpl.
  by rewrite <-!app_assoc.
Qed.

(** * Which exceptions a computation can raise *)

Section raises.
Context (P : exn → Prop).

Lemma result_raises_Ok {A} (a : A) : result_raises P (Ok a).
Proof. by intros e [=]. Qed.

Lemma result_raises_Raise {A} e : P e → result_raises P (@Raise A e).
Proof. by intros He e' [= <-]. Qed.

Lemma result_raises_bind {A B} (r : result A) (f : A → result B) :
  result_raises P r → (∀ a, result_raises P (f a)) → result_raises P (r ≫= f).
Proof.
  intros Hr Hf e. destruct r as [a|e']; simpl.
  - apply Hf.
  - intros [= <-]. by apply Hr.
Qed.

Lemma result_raises_mapM {A B} (f : A → result B) (l : list A) :
  (∀ x, result_raises P (f x)) → result_raises P (mapM f l).
Proof.
  intros Hf. induction l as [|x l IH]; simpl.
  - apply result_raises_Ok.
  - apply result_raises_bind; [apply Hf|]. intros y.
    apply result_raises_bind; [apply IH|]. intros k. apply result_raises_Ok.
Qed.

Lemma raises_ret {A} (a : A) : raises P (mret a).
Proof. by intros w e [=]. Qed.

Lemma raises_raise {A} e : P e → raises P (@raise A e).
Proof. by intros He w e' [= <-]. Qed.

Lemma raises_lift {A} (r : result A) : result_raises P r → raises P (lift r).
Proof. intros Hr w e. apply Hr. Qed.

Lemma raises_emit ev : raises P (emit ev).
Proof. by intros w e [=]. Qed.

Lemma raises_new df : raises P (new df).
Proof. by intros w e [=]. Qed.

Lemma raises_load r : P ReferenceLost → raises P (load r).
Proof.
  intros HP w e. unfold load. destruct (heap w !! r); simpl; [done|].
  by intros [= <-].
Qed.

Lemma raises_bind {A B} (m : M A) (f : A → M B) :
  raises P m → (∀ a, raises P (f a)) → raises P (m ≫= f).
Proof.
  intros Hm Hf w e. unfold mbind, M_bind.
  pose proof (Hm w) as Hmw. destruct (m w) as [[a|e'] w']; simpl in *.
  - apply Hf.
  - intros [= <-]. by apply Hmw.
Qed.

Lemma raises_for {A} (xs : list A) (body : A → M unit) :
  (∀ x, raises P (body x)) → raises P (for_ xs body).
Proof.
  intros Hbody. induction xs as [|x xs IH]; simpl.
  - apply raises_ret.
  - apply raises_bind; [apply Hbody|]. by intros _.
Qed.
End raises.

Lemma islice_raises {A} (l : list A) start stop step :
  result_raises other_failure (islice l start stop step).
Proof.
  unfold islice. repeat case_match;
    (apply result_raises_Ok || by apply result_raises_Raise).
Qed.

Lemma df_iloc_raises df positions : result_raises other_failure (df_iloc df positions).
Proof.
  assert (∀ A (l : list A) n p, result_raises other_failure (iloc_at l n p)) as Hat.
  { intros A l n p. unfold iloc_at. repeat case_match;
      (apply result_raises_Ok || by apply result_raises_Raise). }
  unfold df_iloc.
  apply result_raises_bind; [by apply result_raises_mapM|]. intros ix.
  apply result_raises_bind; [|intros; apply result_raises_Ok].
  apply result_raises_mapM. intros c.
  apply result_raises_bind; [by apply result_raises_mapM|].
  intros; apply result_raises_Ok.
Qed.

Lemma df_getitem_raises df names : result_raises other_failure (df_getitem df names).
Proof.
  unfold df_getitem.
  apply result_raises_bind; [|intros; apply result_raises_Ok].
  apply result_raises_mapM. intros name.
  case_match; (apply result_raises_Ok || by apply result_raises_Raise).
Qed.

Lemma slice_raises r range step :
  raises other_failure (_slice_dataframe_rows r range step).
Proof.
  unfold _slice_dataframe_rows.
  apply raises_bind; [by apply raises_load|]. intros df.
  apply raises_bind; [apply raises_lift, islice_raises|]. intros sel.
  apply raises_bind; [apply raises_lift, df_iloc_raises|]. intros d.
  apply raises_new.
Qed.

Lemma prepare_raises_other r range step occ :
  raises other_failure (_prepare_dataframe_for_plotting r range step occ).
Proof.
  unfold _prepare_dataframe_for_plotting.
  apply raises_bind; [by apply raises_load|]. intros df.
  apply raises_bind; [apply raises_lift, df_getitem_raises|]. intros d1.
  apply raises_bind; [apply raises_new|]. intros r1.
  apply raises_bind; [apply slice_raises|]. intros r2.
  destruct occ; [|apply raises_ret].
  apply raises_bind; [by apply raises_load|]. intros d2. apply raises_new.
Qed.

Lemma format_raises_other d names :
  raises other_failure (_format_superfeature_names d names).
Proof.
  unfold _format_superfeature_names. case_match; [apply raises_ret|].
  apply raises_bind; [|intros; apply raises_ret].
  apply raises_for. intros name.
  unfold Dynophore._raise_keyerror_if_invalid_superfeature_name.
  case_decide; [apply raises_ret | by apply raises_raise].
Qed.

Lemma get_table_raises attribute d key :
  raises other_failure (get_table attribute d key).
Proof.
  unfold get_table. apply raises_bind; [apply raises_emit|]. intros _.
  case_match; [apply raises_ret | by apply raises_raise].
Qed.

Lemma plt_subplots_raises nrows ncols :
  raises other_failure (plt_subplots nrows ncols).
Proof.
  unfold plt_subplots. case_decide; [by apply raises_raise | apply raises_emit].
Qed.

Lemma df_plot_raises ax data kind : raises other_failure (df_plot ax data kind).
Proof.
  unfold df_plot. apply raises_bind; [by apply raises_load|]. intros df.
  case_match; [by apply raises_raise | apply raises_emit].
Qed.

(** * The distance rendering and its mode switch *)

Lemma envpartners_distances_raises_other d names kind range step :
  kind = "line" ∨ kind = "hist" →
  raises other_failure (envpartners_distances d names kind range step).
Proof.
  intros Hkind. unfold envpartners_distances.
  apply raises_bind; [apply format_raises_other|]. intros names'.
  apply raises_bind; [apply plt_subplots_raises|]. intros _.
  apply raises_for. intros [i name].
  apply raises_bind; [apply raises_emit|]. intros _.
  apply raises_bind; [apply get_table_raises|]. intros r.
  apply raises_bind; [apply prepare_raises_other|]. intros r'.
  case_decide.
  { apply raises_bind; [apply df_plot_raises|]. intros _. apply raises_emit. }
  case_decide; [|by destruct Hkind].
  apply raises_bind; [by apply raises_load|]. intros df.
  case_match; [by apply raises_raise|].
  case_decide; [by apply raises_raise|].
  apply raises_bind; [apply raises_emit|]. intros _. apply raises_emit.
Qed.

(** C5.  For a selection of one or more known superfeatures (none of them
    mentioning ["all"]) whose distance tables are ready, the distance
    rendering raises the mode-selection failure exactly when the mode is
    neither ["line"] nor ["hist"]. *)
Theorem envpartners_distances_kind d names kind range step w :
  ¬ contains_all names →
  requested names ≠ [] →
  Forall (.∈ Dynophore.superfeatures d) (requested names) →
  Forall (distances_ready d w range step) (requested names) →
  (∃ w', envpartners_distances d names kind range step w = (Raise mode_failure, w'))
  ↔ kind ≠ "line" ∧ kind ≠ "hist".
Proof.
  intros Hall Hne Hknown Hready. split.
  - intros [w' Hrun].
    destruct (decide (kind = "line")) as [Hline|Hline];
      [|destruct (decide (kind = "hist")) as [Hhist|Hhist]; [|done]].
    + exfalso.
      eapply (envpartners_distances_raises_other d names kind range step);
        [by left| |done]. by rewrite Hrun.
    + exfalso.
      eapply (envpartners_distances_raises_other d names kind range step);
        [by right| |done]. by rewrite Hrun.
  - intros [Hline Hhist]. unfold envpartners_distances.
    unfold mbind at 1, M_bind at 1.
    rewrite format_without_all by done. unfold mbind at 1, M_bind at 1.
    rewrite validate_all_known by done. simpl.
    destruct (requested names) as [|name rest] eqn:Hreq; [done|].
    apply Forall_cons_1 in Hready as [(r & df & Hassoc & Hr & Hft & Hvalid) _].
    unfold py_len. simpl. unfold get_table, mbind, M_bind, emit. simpl.
    rewrite Hassoc. simpl.
    match goal with
    | |- context [_prepare_dataframe_for_plotting r range step false ?w1] =>
        destruct (prepare_returns w1 r df range step false Hr Hft Hvalid)
          as (r' & w' & -> & _)
    end.
    rewrite !decide_False by done. unfold raise. eauto.
Qed.

(** * The combined rendering *)

(** The data part on a known superfeature whose two tables are ready: two
    lookups in the dynophore, then both tables prepared with the flag set. *)
Lemma all_in_one_data_run d arg name range step w ro dfo rd dfd :
  arg = Name name ∨ (∃ rest, arg = NameTuple (name :: rest)) →
  name ∈ Dynophore.superfeatures d →
  assoc (Dynophore.envpartners_occurrences d) name = Some ro →
  heap w !! ro = Some dfo → frames_table dfo → valid_slice dfo range step →
  assoc (Dynophore.envpartners_distances d) name = Some rd →
  heap w !! rd = Some dfd → frames_table dfd → valid_slice dfd range step →
  ∃ ro' rd' w',
    envpartners_all_in_one_data d arg range step w = (Ok (ro', rd'), w')
    ∧ heap w' !! ro' = Some (prepared dfo range step true)
    ∧ heap w' !! rd' = Some (prepared dfd range step true)
    ∧ trace w' = trace w ++ [GetTable "envpartners_occurrences" name;
                              GetTable "envpartners_distances" name].
Proof.
  intros Harg Hknown Hao Hro Hfto Hvo Had Hrd Hftd Hvd.
  unfold envpartners_all_in_one_data.
  assert (match arg with
          | Name s => mret s
          | NameTuple [] => raise IndexError
          | NameTuple (s :: _) => mret s
          end = (mret name : M string)) as Hname
    by by destruct Harg as [->|[rest ->]].
  unfold mbind at 1, M_bind at 1. rewrite Hname. simpl.
  unfold mbind at 1, M_bind at 1. rewrite validate_known by done.
  unfold get_table, mbind, M_bind, emit. simpl. rewrite Hao, Had. simpl.
  unfold default_is_occurrences.
  match goal with
  | |- context [_prepare_dataframe_for_plotting ro range step true ?w1] =>
      destruct (prepare_returns w1 ro dfo range step true Hro Hfto Hvo)
        as (ro' & w2 & -> & Hout2 & _ & Hsub & Ht2)
  end.
  assert (heap w2 !! rd = Some dfd) as Hrd2 by by eapply lookup_weaken.
  destruct (prepare_returns w2 rd dfd range step true Hrd2 Hftd Hvd)
    as (rd' & w3 & -> & Hout3 & _ & Hsub3 & Ht3).
  exists ro', rd', w3. split_and!; [done| |done|].
  - by eapply lookup_weaken.
  - rewrite Ht3, Ht2. simpl. by rewrite <-app_assoc.
Qed.

(** Whatever then becomes of the drawing, the tables drawn are the two
    prepared ones: the occurrences in the upper row, the distances in the
    lower row. *)
Lemma all_in_one_draws_prepared d arg name range step w ro dfo rd dfd :
  arg = Name name ∨ (∃ rest, arg = NameTuple (name :: rest)) →
  name ∈ Dynophore.superfeatures d →
  assoc (Dynophore.envpartners_occurrences d) name = Some ro →
  heap w !! ro = Some dfo → frames_table dfo → valid_slice dfo range step →
  assoc (Dynophore.envpartners_distances d) name = Some rd →
  heap w !! rd = Some dfd → frames_table dfd → valid_slice dfd range step →
  ∃ ro' rd' res w' events,
    envpartners_all_in_one d arg range step w = (res, w')
    ∧ heap w' !! ro' = Some (prepared dfo range step true)
    ∧ heap w' !! rd' = Some (prepared dfd range step true)
    ∧ trace w' = trace w ++ events
    ∧ Forall (λ ev,
                match ev with
                | Plot (0%nat, _) r _ => r = ro'
                | Plot (_, _) r _ => r = rd'
                | _ => True
                end) events.
Proof.
  intros Harg Hknown Hao Hro Hfto Hvo Had Hrd Hftd Hvd.
  destruct (all_in_one_data_run _ _ _ _ _ _ _ _ _ _
              Harg Hknown Hao Hro Hfto Hvo Had Hrd Hftd Hvd)
    as (ro' & rd' & w1 & Hdata & Hro' & Hrd' & Ht1).
  exists ro', rd'. unfold envpartners_all_in_one.
  unfold mbind at 1, M_bind at 1. rewrite Hdata.
  unfold mbind, M_bind, emit, load, raise; simpl. rewrite Hro'.
  destruct (index (prepared dfo range step true)) as [|frame frames].
  { eexists _, _, _. split; [done|]. simpl. rewrite Ht1, <-!app_assoc.
    split_and!; [done..|]. simpl. by repeat constructor. }
  simpl. rewrite Hrd'. destruct (all_missing (prepared dfd range step true)).
  - eexists _, _, _. split; [done|]. simpl. rewrite Ht1, <-!app_assoc.
    split_and!; [done..|]. simpl. by repeat constructor.
  - eexists _, _, _. split; [done|]. simpl. rewrite Ht1, <-!app_assoc.
    split_and!; [done..|]. simpl. by repeat constructor.
Qed.

(** C10.  The combined rendering prepares the distance table of a known
    superfeature with the occurrences flag at its default, [true].  The
    table it goes on to draw is the distance table [dfd] prepared as
    occurrences: the columns of [dfd] in the order of their descending
    sums, over the selected frames, column [i] (counted from 0) holding
    the distances of its superfeature at those frames with every distance
    equal to 1 replaced by the rank [i + 1], every distance equal to 0
    replaced by the missing marker, and every other distance as it was.
    Against the table the preparation returns without the flag, this is
    the same table up to that replacement. *)
Theorem all_in_one_recodes_distances d arg name range step w ro dfo rd dfd :
  arg = Name name ∨ (∃ rest, arg = NameTuple (name :: rest)) →
  name ∈ Dynophore.superfeatures d →
  assoc (Dynophore.envpartners_occurrences d) name = Some ro →
  heap w !! ro = Some dfo → frames_table dfo → valid_slice dfo range step →
  assoc (Dynophore.envpartners_distances d) name = Some rd →
  heap w !! rd = Some dfd → frames_table dfd → valid_slice dfd range step →
  default_is_occurrences = true
  ∧ ∃ ro' rd' w' out r0 w0 plain,
      envpartners_all_in_one_data d arg range step w = (Ok (ro', rd'), w')
      ∧ heap w' !! rd' = Some out
      ∧ prepared_from dfd range step true out
      ∧ (∀ i cname cells' k c',
           columns out !! i = Some (cname, cells') →
           cells' !! k = Some c' →
           ∃ cells c,
             (cname, cells) ∈ columns dfd
             ∧ select_frames dfd range step cells !! k = Some c
             ∧ match c with
               | Num q =>
                   (Qeq_bool q 1 = true → c' = Num (inject_Z (Z.of_nat i + 1)))
                   ∧ (Qeq_bool q 0 = true → c' = NA)
                   ∧ (Qeq_bool q 1 = false → Qeq_bool q 0 = false → c' = Num q)
               | NA => c' = NA
               end)
      ∧ _prepare_dataframe_for_plotting rd range step false w = (Ok r0, w0)
      ∧ heap w0 !! r0 = Some plain
      ∧ length (columns out) = length (columns plain)
      ∧ ∀ i cname cells,
          columns plain !! i = Some (cname, cells) →
          ∃ cells',
            columns out !! i = Some (cname, cells')
            ∧ Forall2 (λ c c',
                         match c with
                         | Num q =>
                             (Qeq_bool q 1 = true →
                              c' = Num (inject_Z (Z.of_nat i + 1)))
                             ∧ (Qeq_bool q 0 = true → c' = NA)
                             ∧ (Qeq_bool q 1 = false → Qeq_bool q 0 = false →
                                c' = Num q)
                         | NA => c' = NA
                         end) cells cells'.
Proof.
  intros Harg Hknown Hao Hro Hfto Hvo Had Hrd Hftd Hvd. split; [done|].
  destruct (prepare_returns _ _ _ _ _ false Hrd Hftd Hvd)
    as (r0 & w0 & Hrun0 & Hplain & _).
  destruct (all_in_one_data_run _ _ _ _ _ _ _ _ _ _
              Harg Hknown Hao Hro Hfto Hvo Had Hrd Hftd Hvd)
    as (ro' & rd' & w' & Hdata & _ & Hout & _).
  exists ro', rd', w', (prepared dfd range step true),
         r0, w0, (prepared dfd range step false).
  split_and!; [done..| | |done|done| |].
  - by apply prepared_is_prepared_from.
  - intros i cname cells' k c' Hi Hk.
    destruct (prepared_column _ _ _ _ _ _ _ Hftd Hi) as (cells & Hin & _ & ->).
    rewrite list_lookup_fmap in Hk.
    destruct (strided _ _ _ cells !! k) as [c|] eqn:Hc; simplify_eq/=.
    exists cells, c. split_and!; [done..|].
    destruct c as [q|]; [|done]. split_and!.
    + by apply recode_present.
    + by apply recode_absent.
    + intros. by apply recode_other.
  - unfold prepared, recoded; cbn [columns]. by rewrite length_imap.
  - intros i cname cells Hi. exists (recode i <$> cells).
    by apply recoded_column.
Qed.

(** * The properties on the small dynophore *)


(** C2 on the same table, frames 1 to 2. *)
Lemma prepare_row_count_step_one_example :
  ∃ r' w' out,
    _prepare_dataframe_for_plotting 1%nat (1, Some 2) 1 true example_world = (Ok r', w')
    ∧ heap w' !! r' = Some out
    ∧ index out = seqZ 1 (2 `min` (Z.of_nat (shape0 example_occurrences) - 1) - 1 + 1)
    ∧ Z.of_nat (shape0 out)
      = 0 `max` (2 `min` (Z.of_nat (shape0 example_occurrences) - 1) - 1 + 1)
    ∧ Forall (λ c, length c.2 = shape0 out) (columns out)
    ∧ (Some 2 = None →
       _prepare_dataframe_for_plotting 1%nat (1, None) 1 true example_world
       = _prepare_dataframe_for_plotting
           1%nat (1, Some (Z.of_nat (shape0 example_occurrences) - 1)) 1 true
           example_world).
Proof.
  apply (prepare_row_count_step_one example_world 1%nat example_occurrences 1 (Some 2) true).
  - reflexivity.
  - by_evaluation.
  - right. discriminate.
  - by_evaluation.
Defined.

(** C3 on the distance table, every second frame up to frame 2. *)
Lemma prepare_columns_sorted_example :
  match _prepare_dataframe_for_plotting 2%nat (0, Some 2) 2 false example_world with
  | (Ok r', w') =>
      valid_slice example_distances (0, Some 2) 2
      ∧ ∃ out totals,
          heap w' !! r' = Some out
          ∧ totals ≡ₚ df_apply_sum example_distances
          ∧ column_names out = totals.*1
          ∧ StronglySorted by_sum_desc totals
  | (Raise e, _) => e = ValueError ∧ ¬ valid_slice example_distances (0, Some 2) 2
  end.
Proof.
  apply (prepare_columns_sorted example_world 2%nat example_distances (0, Some 2) 2 false).
  - reflexivity.
  - by_evaluation.
Defined.

(** C6 on the table of ten frames. *)
Lemma prepare_ten_frames_step_two_example :
  ∃ r' w' out,
    _prepare_dataframe_for_plotting 3%nat (0, None) 2 true example_world = (Ok r', w')
    ∧ heap w' !! r' = Some out
    ∧ index out = [0; 2; 4; 6; 8]
    ∧ length (columns out) = 2%nat
    ∧ ∀ i name cells', columns out !! i = Some (name, cells') →
        ∃ cells, (name, cells) ∈ columns example_ten_frames
          ∧ Forall2 (λ p c', recode i <$> cells !! p = Some c')
                    [0; 2; 4; 6; 8]%nat cells'.
Proof.
  apply (prepare_ten_frames_step_two example_world 3%nat example_ten_frames true).
  - reflexivity.
  - by_evaluation.
  - reflexivity.
  - reflexivity.
Defined.

(** C7 from a start past the last of four frames. *)
Lemma prepare_empty_selection_example :
  ∃ r' w' out,
    _prepare_dataframe_for_plotting 1%nat (4, None) 1 true example_world = (Ok r', w')
    ∧ heap w' !! r' = Some out
    ∧ index out = []
    ∧ Forall (λ c, c.2 = []) (columns out).
Proof.
  apply (prepare_empty_selection example_world 1%nat example_occurrences (4, None) 1 true).
  - reflexivity.
  - reflexivity.
Defined.

(** C8 on the occurrences of the partners of [H[1]]. *)
Lemma prepare_input_unchanged_example :
  let run := _prepare_dataframe_for_plotting 1%nat (0, None) 1 true example_world in
  heap run.2 !! 1%nat = Some example_occurrences
  ∧ (∀ r0 d, heap example_world !! r0 = Some d → heap run.2 !! r0 = Some d)
  ∧ ∀ r', run.1 = Ok r' →
      r' ≠ 1%nat ∧ heap example_world !! r' = None ∧ is_Some (heap run.2 !! r').
Proof.
  apply (prepare_input_unchanged example_world 1%nat example_occurrences (0, None) 1 true).
  - reflexivity.
  - apply surjective_pairing.
Defined.

(** C9 on an unknown name listed next to [all]. *)
Lemma format_all_short_circuit_example :
  _format_superfeature_names example_dynophore (List ["unknown"; "all"]) example_world
  = (Ok (Str "all"), example_world).
Proof.
  apply (format_all_short_circuit example_dynophore (List ["unknown"; "all"])).
  by_evaluation.
Defined.

(** C4, as amended, on an unknown name between two known ones. *)
Lemma format_raises_on_unknown_example :
  (∃ i bad,
     list_find (.∉ Dynophore.superfeatures example_dynophore)
               (requested (List ["H[1]"; "X[9]"; "AR[2]"])) = Some (i, bad)
     ∧ _format_superfeature_names example_dynophore
         (List ["H[1]"; "X[9]"; "AR[2]"]) example_world
       = (Raise (KeyError (UnknownSuperfeature bad)), example_world)
     ∧ ∀ B (k : selector → M B),
         (_format_superfeature_names example_dynophore
            (List ["H[1]"; "X[9]"; "AR[2]"]) ≫= k) example_world
         = (Raise (KeyError (UnknownSuperfeature bad)), example_world))
  ∧ _format_superfeature_names example_dynophore (Str "all") example_world
    = (Ok (Str "all"), example_world).
Proof.
  apply (format_raises_on_unknown example_dynophore
           (List ["H[1]"; "X[9]"; "AR[2]"]) "X[9]").
  - by_evaluation.
  - by_evaluation.
  - by_evaluation.
Defined.

(** C5 on the mode [scatter]. *)
Lemma envpartners_distances_kind_example :
  (∃ w', envpartners_distances example_dynophore (Str "H[1]") "scatter"
           (0, None) 1 example_world = (Raise mode_failure, w'))
  ↔ "scatter" ≠ "line" ∧ "scatter" ≠ "hist".
Proof.
  apply (envpartners_distances_kind example_dynophore (Str "H[1]") "scatter"
           (0, None) 1 example_world).
  - by_evaluation.
  - discriminate.
  - by_evaluation.
  - constructor; [|constructor].
    exists 2%nat, example_distances. split_and!.
    + reflexivity.
    + reflexivity.
    + by_evaluation.
    + by_evaluation.
Defined.

(** C10 on the tuple IPyWidgets would pass for [H[1]]. *)
Lemma all_in_one_recodes_distances_example :
  default_is_occurrences = true
  ∧ ∃ ro' rd' w' out r0 w0 plain,
      envpartners_all_in_one_data example_dynophore (NameTuple ["H[1]"]) (0, None) 1
        example_world = (Ok (ro', rd'), w')
      ∧ heap w' !! rd' = Some out
      ∧ prepared_from example_distances (0, None) 1 true out
      ∧ (∀ i cname cells' k c',
           columns out !! i = Some (cname, cells') →
           cells' !! k = Some c' →
           ∃ cells c,
             (cname, cells) ∈ columns example_distances
             ∧ select_frames example_distances (0, None) 1 cells !! k = Some c
             ∧ match c with
               | Num q =>
                   (Qeq_bool q 1 = true → c' = Num (inject_Z (Z.of_nat i + 1)))
                   ∧ (Qeq_bool q 0 = true → c' = NA)
                   ∧ (Qeq_bool q 1 = false → Qeq_bool q 0 = false → c' = Num q)
               | NA => c' = NA
               end)
      ∧ _prepare_dataframe_for_plotting 2%nat (0, None) 1 false example_world
        = (Ok r0, w0)
      ∧ heap w0 !! r0 = Some plain
      ∧ length (columns out) = length (columns plain)
      ∧ ∀ i cname cells,
          columns plain !! i = Some (cname, cells) →
          ∃ cells',
            columns out !! i = Some (cname, cells')
            ∧ Forall2 (λ c c',
                         match c with
                         | Num q =>
                             (Qeq_bool q 1 = true →
                              c' = Num (inject_Z (Z.of_nat i + 1)))
                             ∧ (Qeq_bool q 0 = true → c' = NA)
                             ∧ (Qeq_bool q 1 = false → Qeq_bool q 0 = false →
                                c' = Num q)
                         | NA => c' = NA
                         end) cells cells'.
Proof.
  apply (all_in_one_recodes_distances example_dynophore (NameTuple ["H[1]"]) "H[1]"
           (0, None) 1 example_world 1%nat example_occurrences 2%nat example_distances).
  - right. by exists [].
  - by_evaluation.
  - reflexivity.
  - reflexivity.
  - by_evaluation.
  - by_evaluation.
  - reflexivity.
  - reflexivity.
  - by_evaluation.
  - by_evaluation.
Defined.

(** C4 as stated fails: an unknown name requested next to ["all"] raises
    nothing. *)
Lemma format_unknown_beside_all_not_raised :
  ¬ (∀ (d : Dynophore.t) (names : selector) (name : string) (w : world),
       name ∈ requested names →
       name ∉ Dynophore.superfeatures d →
       ∃ e w', _format_superfeature_names d names w = (Raise e, w')).
Proof.
  intros H.
  destruct (H example_dynophore (List ["X[9]"; "all"]) "X[9]" example_world)
    as (e & w' & Hrun); [by_evaluation..|].
  vm_compute in Hrun. discriminate.
Qed.

(** ** Evaluations *)

(** Addition of doubles: [0.1 + 0.2] is [0.30000000000000004]; a tie goes
    to the even neighbour; beyond the largest double lies infinity. *)
Example float64_add_tenths :
  float64_add (3602879701896397 # 36028797018963968)
              (3602879701896397 # 18014398509481984)
  = Num (1351079888211149 # 4503599627370496).
Proof. by vm_compute. Qed.

Example float64_add_ties_to_even :
  float64_add 9007199254740992 1 = Num 9007199254740992
  ∧ float64_add 9007199254740994 1 = Num 9007199254740996.
Proof. by vm_compute. Qed.

Example float64_add_overflow :
  float64_add (inject_Z (2 ^ 1024 - 2 ^ 971)) (inject_Z (2 ^ 1024 - 2 ^ 971))
  = Num float64_inf
  ∧ float64_add float64_inf (Qopp float64_inf) = NA.
Proof. by vm_compute. Qed.

(** The order of the columns is that of the sums as the program adds
    them: [ILE-10] adds up to 0 and comes after [VAL-18]. *)
Example prepare_rounded_sums :
  df_apply_sum example_rounding = [("ILE-10", Num 0); ("VAL-18", Num (1 # 2))]
  ∧ sorted_column_names example_rounding = ["VAL-18"; "ILE-10"].
Proof. by vm_compute. Qed.

(** Columns of equal sum stay in the order they came in. *)
Example sort_values_desc_ties :
  (sort_values_desc [("a", Num 1); ("b", Num 2); ("c", Num 1); ("d", NA); ("e", Num 2)]).*1
  = ["b"; "e"; "a"; "c"; "d"].
Proof. by vm_compute. Qed.

Example format_single_name_containing_all :
  _format_superfeature_names example_dynophore (Str "small[3]") example_world
  = (Ok (Str "all"), example_world).
Proof. reflexivity. Qed.

Example format_known_names :
  _format_superfeature_names example_dynophore (Tuple ["AR[2]"; "H[1]"]) example_world
  = (Ok (List ["AR[2]"; "H[1]"]), example_world).
Proof. reflexivity. Qed.

Example prepare_occurrences_evaluated :
  let run := _prepare_dataframe_for_plotting 1%nat (0, None) 1 true example_world in
  match run.1 with Ok r' => heap run.2 !! r' | Raise _ => None end
  = Some {| index := [0; 1; 2; 3];
            columns := [("VAL-18", [Num 1; Num 1; NA; Num 1]);
                        ("PHE-80", [Num 2; NA; Num 2; NA]);
                        ("ILE-10", [NA; Num 3; NA; NA])] |}.
Proof. by vm_compute. Qed.

Example prepare_distances_in_all_in_one_evaluated :
  let run := envpartners_all_in_one_data example_dynophore (Name "H[1]") (0, None) 1
               example_world in
  match run.1 with Ok tables => heap run.2 !! tables.2 | Raise _ => None end
  = Some {| index := [0; 1; 2; 3];
            columns := [("VAL-18", [Num 1; Num (5 # 2); NA; Num 4]);
                        ("PHE-80", [Num (9 # 2); NA; Num 2; NA]);
                        ("ILE-10", [NA; Num (7 # 2); NA; NA])] |}.
Proof. by vm_compute. Qed.

Example envpartners_distances_hist_all_missing :
  (envpartners_distances example_dynophore (Str "H[1]") "hist" (4, None) 1
     example_world).1
  = Raise ValueError.
Proof. by vm_compute. Qed.

(** No superfeature selected: [plt.subplots(nrows=0)] raises. *)
Example envpartners_distances_empty_selection :
  envpartners_distances example_dynophore (List []) "line" (0, None) 1 example_world
  = (Raise ValueError, example_world)
  ∧ envpartners_occurrences example_dynophore (List []) (0, None) 1 example_world
    = (Raise ValueError, example_world).
Proof. by vm_compute. Qed.

(** Distances that are all 3: no bin between floor and ceiling. *)
Example envpartners_distances_hist_without_bins :
  (envpartners_distances example_dynophore (Str "H[1]") "hist" (0, None) 1
     example_flat_world).1
  = Raise ValueError
  ∧ (envpartners_distances example_dynophore (Str "H[1]") "line" (0, None) 1
       example_flat_world).1
    = Ok ().
Proof. by vm_compute. Qed.

Example envpartners_distances_all_selector :
  (envpartners_distances example_dynophore (Str "all") "line" (0, None) 1
     example_world).1
  = Raise (KeyError (MissingKey "a")).
Proof. by vm_compute. Qed.

Example prepare_step_zero :
  (_prepare_dataframe_for_plotting 1%nat (0, None) 0 true example_world).1
  = Raise ValueError.
Proof. by vm_compute. Qed.

Example prepare_start_at_last_row :
  let run := _prepare_dataframe_for_plotting 1%nat (3, None) 1 false example_world in
  match run.1 with Ok r' => heap run.2 !! r' | Raise _ => None end
  = Some {| index := [3];
            columns := [("VAL-18", [Num 1]); ("PHE-80", [Num 0]); ("ILE-10", [Num 0])] |}.
Proof. by vm_compute. Qed.

Example prepare_negative_end :
  (_prepare_dataframe_for_plotting 1%nat (0, Some (-2)) 1 true example_world).1
  = Raise ValueError.
Proof. by vm_compute. Qed.

(** The order is that of the sums over all rows of the input: the sums over
    the selected rows alone need not be ordered. *)
Example prepare_selected_rows_sums :
  let run := _prepare_dataframe_for_plotting 1%nat (2, Some 2) 1 false example_world in
  match run.1 with Ok r' => df_apply_sum <$> heap run.2 !! r' | Raise _ => None end
  = Some [("VAL-18", Num 0); ("PHE-80", Num 1); ("ILE-10", Num 0)].
Proof. by vm_compute. Qed.

(** * Further properties of the row slicing *)

Lemma stride_lookup {A} (l : list A) (step skip j : nat) :
  (1 ≤ step)%nat → stride step skip l !! j = l !! (skip + j * step)%nat.
Proof.
  intros Hstep. revert skip j.
  induction l as [|x l IH]; intros skip j; simpl; [done|].
  destruct skip as [|skip]; simpl.
  - destruct j as [|j]; simpl; [done|].
    rewrite IH. destruct step as [|step]; [lia|]. simpl.
    f_equal. lia.
  - by rewrite IH.
Qed.

(** [j] is below the number of steps of size [k] that fit in [m]. *)
Lemma steps_below (j k m : Z) :
  0 < k → 0 ≤ m → (j < (m + k - 1) / k ↔ j * k < m).
Proof.
  intros Hk Hm. split.
  - intros Hj. assert (j + 1 ≤ (m + k - 1) / k) as Hle by lia.
    pose proof (Z.mul_div_le (m + k - 1) k Hk). nia.
  - intros Hj. assert (j + 1 ≤ (m + k - 1) / k); [|lia].
    apply Z.div_le_lower_bound; lia.
Qed.

(** The frames picked from an index [0 .. n-1]. *)
Lemma strided_seqZ (start stop step : nat) (n : Z) :
  (1 ≤ step)%nat → 0 ≤ n →
  strided start stop step (seqZ 0 n)
  = (λ j, Z.of_nat start + j * Z.of_nat step)
      <$> seqZ 0 ((0 `max` (Z.of_nat stop `min` n - Z.of_nat start)
                   + Z.of_nat step - 1) / Z.of_nat step).
Proof.
  intros Hstep Hn. unfold strided. apply list_eq. intros j.
  rewrite stride_lookup by done. rewrite take_drop_seqZ. simpl.
  rewrite list_lookup_fmap.
  set (m := 0 `max` (Z.of_nat stop `min` n - Z.of_nat start)).
  destruct (decide (Z.of_nat j * Z.of_nat step < m)) as [Hlt|Hge].
  - rewrite lookup_seqZ_lt by lia.
    rewrite lookup_seqZ_lt by (apply steps_below; lia). simpl. f_equal. lia.
  - rewrite lookup_seqZ_ge by lia.
    rewrite lookup_seqZ_ge; [done|].
    apply Z.nlt_ge. intros Hlt. apply Hge. apply steps_below in Hlt; lia.
Qed.

(** X1.  On a table whose rows are the frames [0 .. n-1], slicing with a
    frame range and a step size that [islice] accepts returns the frames
    [start, start + step, start + 2 step, ...] up to [min(end, n-1)]: as
    many as steps of that size fit, in every column, under the same column
    names in the same order. *)
Theorem slice_rows_strided w r df range step :
  heap w !! r = Some df →
  index df = seqZ 0 (Z.of_nat (shape0 df)) →
  Forall (λ c, length c.2 = shape0 df) (columns df) →
  valid_slice df range step →
  let n := Z.of_nat (shape0 df) in
  let count := (0 `max` (ix_stop df range `min` n - range.1) + step - 1) / step in
  ∃ r' w' out,
    _slice_dataframe_rows r range step w = (Ok r', w')
    ∧ heap w' !! r' = Some out
    ∧ index out = (λ j, range.1 + j * step) <$> seqZ 0 count
    ∧ column_names out = column_names df
    ∧ Forall (λ c, length c.2 = Z.to_nat count) (columns out).
Proof.
  intros Hr Hix Hrect Hvalid n count.
  rewrite (slice_run _ _ _ _ _ Hr Hix Hrect), decide_True by done.
  destruct (new_run (sliced df range step) w) as (r' & w' & -> & _ & Hh & _).
  destruct Hvalid as ([Hstart _] & [Hstop _] & [Hstep _]).
  assert (index (sliced df range step)
          = (λ j, range.1 + j * step) <$> seqZ 0 count) as Hindex.
  { unfold sliced, select_rows; cbn [index]. rewrite Hix. fold n.
    rewrite strided_seqZ by lia. rewrite !Z2Nat.id by lia. done. }
  exists r', w', (sliced df range step). split_and!; [done| |done| |].
  - by rewrite Hh, lookup_insert_eq.
  - unfold sliced, select_rows, column_names; cbn [columns].
    by rewrite <-list_fmap_compose.
  - assert (length (index (sliced df range step)) = Z.to_nat count) as Hlen
      by by rewrite Hindex, length_fmap, length_seqZ.
    rewrite <-Hlen. unfold sliced, select_rows; cbn [index columns].
    apply Forall_fmap. eapply Forall_impl; [exact Hrect|].
    intros c Hc; simpl. by apply length_strided_eq.
Qed.

Lemma mapM_Ok_inv {A B} (f : A → result B) (l : list A) (k : list B) :
  mapM f l = Ok k → Forall2 (λ x y, f x = Ok y) l k.
Proof.
  revert k. induction l as [|x l IH]; intros k; simpl.
  - intros [= <-]. constructor.
  - destruct (f x) as [y|e] eqn:Hx; simpl; [|done].
    destruct (mapM f l) as [k'|e] eqn:Hl; simpl; [|done].
    intros [= <-]. constructor; [done|]. by apply IH.
Qed.

Lemma iloc_at_out_of_range {A} (l : list A) (p : Z) :
  p < - Z.of_nat (length l) ∨ Z.of_nat (length l) ≤ p →
  iloc_at l (length l) p = Raise IndexError.
Proof.
  intros Hp. unfold iloc_at.
  destruct (Z.ltb_spec p 0) as [Hneg|Hpos]; cbv zeta.
  - destruct (Z.ltb_spec (Z.of_nat (length l) + p) 0); [done|lia].
  - destruct (Z.ltb_spec p 0); [lia|].
    rewrite lookup_ge_None_2; [done|lia].
Qed.

(** X2.  The row labels picked by [islice] are handed to [iloc] as
    positions.  When one of them is no position of the table (a table
    whose index does not start at 0, say), slicing raises [IndexError] and
    creates nothing. *)
Theorem slice_rows_label_not_a_position w r df range step p :
  heap w !! r = Some df →
  valid_slice df range step →
  p ∈ strided (Z.to_nat range.1) (Z.to_nat (ix_stop df range)) (Z.to_nat step) (index df) →
  p < - Z.of_nat (shape0 df) ∨ Z.of_nat (shape0 df) ≤ p →
  _slice_dataframe_rows r range step w = (Raise IndexError, w).
Proof.
  intros Hr (Hstart & Hstop & Hstep) Hp Hout.
  unfold _slice_dataframe_rows, mbind, M_bind, lift.
  rewrite (load_run _ _ _ Hr). fold (ix_stop df range).
  rewrite islice_valid by done.
  set (ps := strided _ _ _ _) in *.
  assert (df_iloc df ps = Raise IndexError) as ->; [|done].
  unfold df_iloc.
  destruct (mapM (iloc_at (index df) (shape0 df)) ps) as [ix|e] eqn:Hix; simpl.
  - apply mapM_Ok_inv in Hix.
    apply list_elem_of_lookup in Hp as [i Hi].
    destruct (Forall2_lookup_l _ _ _ _ _ Hix Hi) as (y & _ & Hy).
    unfold shape0 in Hy. by rewrite iloc_at_out_of_range in Hy.
  - f_equal.
    assert (result_raises (λ e, e = IndexError)
              (mapM (iloc_at (index df) (shape0 df)) ps)) as Honly.
    { apply result_raises_mapM. intros q. unfold iloc_at.
      repeat case_match;
        (apply result_raises_Ok || by apply result_raises_Raise). }
    by apply Honly.
Qed.

(** * Further properties of the table preparation *)

(** X3.  On a table of frames, every cell of the prepared table is the cell
    of the input table at the same frame and under the same column name,
    recoded when the values are occurrences; no column is lost or added. *)
Theorem prepare_cells_by_frame w r df range step occ :
  heap w !! r = Some df →
  frames_table df →
  valid_slice df range step →
  ∃ r' w' out,
    _prepare_dataframe_for_plotting r range step occ w = (Ok r', w')
    ∧ heap w' !! r' = Some out
    ∧ column_names out ≡ₚ column_names df
    ∧ ∀ i name cells' k f,
        columns out !! i = Some (name, cells') →
        index out !! k = Some f →
        ∃ cells c,
          (name, cells) ∈ columns df
          ∧ 0 ≤ f
          ∧ cells !! Z.to_nat f = Some c
          ∧ cells' !! k = Some ((if occ then recode i else id) c).
Proof.
  intros Hr Hft Hvalid.
  destruct (prepare_returns _ _ _ _ _ occ Hr Hft Hvalid)
    as (r' & w' & Hrun & Hout & _).
  exists r', w', (prepared df range step occ). split_and!; [done..| |].
  - rewrite prepared_names by done. apply sorted_column_names_Permutation.
  - intros i name cells' k f Hi Hk.
    destruct (prepared_column _ _ _ _ _ _ _ Hft Hi) as (cells & Hin & _ & ->).
    rewrite prepared_index in Hk; [|done|].
    2:{ right. intros Hnil. rewrite Hnil in Hin. by apply elem_of_nil in Hin. }
    destruct Hft as (Hix & Hrect & _).
    eapply Forall_forall in Hrect; [|exact Hin]. simpl in Hrect.
    rewrite Hix, <-Hrect in Hk.
    pose proof (strided_Forall2 _ (Z.to_nat range.1) (Z.to_nat (ix_stop df range))
                  (Z.to_nat step) _ _ (range_index_Forall2 cells)) as Hsel.
    destruct (Forall2_lookup_l _ _ _ _ _ Hsel Hk) as (c & Hc & Hf & Hcell).
    exists cells, c. split_and!; [done..|].
    by rewrite list_lookup_fmap, Hc.
Qed.

(** * Further properties of the name normalization *)

(** X4.  The normalization returns, and then changes nothing, in two cases
    only: the selector mentions ["all"] and the answer is ["all"]; or it
    does not, every requested name is known, and the answer is the list of
    the requested names in the order given (a tuple as a list, a single
    name as a list of one). *)
Theorem format_returns d names w v w' :
  _format_superfeature_names d names w = (Ok v, w')
  ↔ w' = w
    ∧ ((contains_all names ∧ v = Str "all")
       ∨ (¬ contains_all names
          ∧ Forall (.∈ Dynophore.superfeatures d) (requested names)
          ∧ v = List (requested names))).
Proof.
  destruct (decide (contains_all names)) as [Hall|Hall].
  - assert (_format_superfeature_names d names w = (Ok (Str "all"), w)) as ->.
    { unfold _format_superfeature_names.
      destruct names as [s|l|l]; simpl in *;
        [by rewrite Hall | by rewrite bool_decide_eq_true_2..]. }
    split.
    + intros [= <- <-]. split; [done|]. by left.
    + intros [-> [[_ ->]|[? _]]]; done.
  - rewrite format_without_all by done. unfold mbind, M_bind.
    destruct (list_find (.∉ Dynophore.superfeatures d) (requested names))
      as [[i bad]|] eqn:Hfind.
    + rewrite (validate_first_unknown _ _ _ _ _ Hfind). split; [done|].
      intros [_ [[? _]|(_ & Hknown & _)]]; [done|].
      apply list_find_Some in Hfind as (Hi & Hbad & _).
      apply list_elem_of_lookup_2 in Hi.
      eapply Forall_forall in Hknown; [|exact Hi]. done.
    + apply list_find_None in Hfind.
      assert (Forall (.∈ Dynophore.superfeatures d) (requested names)) as Hknown.
      { eapply Forall_impl; [exact Hfind|]. intros x Hx. by apply dec_stable in Hx. }
      rewrite validate_all_known by done. split.
      * intros [= <- <-]. split; [done|]. by right.
      * intros [-> [[? _]|(_ & _ & ->)]]; done.
Qed.

(** X5.  What the normalization returns is normal: normalizing it again
    returns it unchanged. *)
Theorem format_idempotent d names w v w' :
  _format_superfeature_names d names w = (Ok v, w') →
  _format_superfeature_names d v w' = (Ok v, w').
Proof.
  intros Hrun.
  destruct (decide (contains_all names)) as [Hall|Hall].
  - assert (v = Str "all") as ->.
    { unfold _format_superfeature_names in Hrun.
      destruct names as [s|l|l]; simpl in *;
        [rewrite Hall in Hrun | rewrite bool_decide_eq_true_2 in Hrun by done..];
        by injection Hrun as <- _. }
    done.
  - rewrite format_without_all in Hrun by done. unfold mbind, M_bind in Hrun.
    destruct (for_ _ _ w) as [[[]|e] w1] eqn:Hloop; [|done].
    injection Hrun as <- <-.
    assert (¬ contains_all (List (requested names))) as Hall'.
    { destruct names as [s|l|l]; simpl in *; [|done..].
      intros Hs%list_elem_of_singleton. by subst s. }
    rewrite format_without_all by done. unfold mbind, M_bind. simpl.
    destruct (list_find (.∉ Dynophore.superfeatures d) (requested names))
      as [[i bad]|] eqn:Hfind.
    + by rewrite (validate_first_unknown _ _ _ _ _ Hfind) in Hloop.
    + apply list_find_None in Hfind.
      rewrite validate_all_known in Hloop.
      2:{ eapply Forall_impl; [exact Hfind|]. intros x Hx. by apply dec_stable in Hx. }
      injection Hloop as <-.
      rewrite validate_all_known; [done|].
      eapply Forall_impl; [exact Hfind|]. intros x Hx. by apply dec_stable in Hx.
Qed.

(** * Further properties of the renderings per superfeature *)

Lemma format_mentions_all_run d names w :
  contains_all names →
  _format_superfeature_names d names w = (Ok (Str "all"), w).
Proof.
  intros Hall. unfold _format_superfeature_names.
  destruct names as [s|l|l]; simpl in *;
    [by rewrite Hall | by rewrite bool_decide_eq_true_2..].
Qed.

(** X6.  A selector that mentions ["all"] reaches the loops over the
    superfeatures as the string ["all"], which they read character by
    character: three subplots are set up and the table of a superfeature
    called ["a"] is asked for.  A dynophore without one makes both
    renderings raise the [KeyError] of that letter, whatever the mode. *)
Theorem envpartners_all_selector_read_by_character d names kind range step w :
  contains_all names →
  assoc (Dynophore.envpartners_occurrences d) "a" = None →
  assoc (Dynophore.envpartners_distances d) "a" = None →
  envpartners_occurrences d names range step w
  = (Raise (KeyError (MissingKey "a")),
     {| heap := heap w;
        trace := trace w ++ [Subplots 3 1; SetTitle (0, 0)%nat "a";
                             GetTable "envpartners_occurrences" "a"] |})
  ∧ envpartners_distances d names kind range step w
    = (Raise (KeyError (MissingKey "a")),
       {| heap := heap w;
          trace := trace w ++ [Subplots 3 1; SetTitle (0, 0)%nat "a";
                               GetTable "envpartners_distances" "a"] |}).
Proof.
  intros Hall Ho Hd. split.
  - unfold envpartners_occurrences. unfold mbind at 1, M_bind at 1.
    rewrite format_mentions_all_run by done.
    unfold mbind, M_bind, emit, get_table, raise. simpl. rewrite Ho. simpl.
    unfold mbind, M_bind. simpl. by rewrite <-!app_assoc.
  - unfold envpartners_distances. unfold mbind at 1, M_bind at 1.
    rewrite format_mentions_all_run by done.
    unfold mbind, M_bind, emit, get_table, raise. simpl. rewrite Hd. simpl.
    unfold mbind, M_bind. simpl. by rewrite <-!app_assoc.
Qed.

(** X7.  In mode ["hist"] the bins run from the floor of the smallest
    distance to the ceiling of the largest.  When the frame range selects
    no frame of the first superfeature's table there is no distance at all,
    and the rendering raises [ValueError] before it draws. *)
Theorem envpartners_distances_hist_without_frames d names name rest range step w r df :
  ¬ contains_all names →
  requested names = name :: rest →
  Forall (.∈ Dynophore.superfeatures d) (requested names) →
  assoc (Dynophore.envpartners_distances d) name = Some r →
  heap w !! r = Some df →
  islice (index df) range.1 (ix_stop df range) step = Ok [] →
  ∃ w',
    envpartners_distances d names "hist" range step w = (Raise ValueError, w')
    ∧ ∀ ax data kind, Plot ax data kind ∈ trace w' → Plot ax data kind ∈ trace w.
Proof.
  intros Hall Hreq Hknown Hassoc Hr Hsel. unfold envpartners_distances.
  unfold mbind at 1, M_bind at 1.
  rewrite format_without_all by done. unfold mbind at 1, M_bind at 1.
  rewrite validate_all_known by done. simpl. rewrite Hreq.
  unfold py_len. simpl. unfold get_table, mbind, M_bind, emit. simpl.
  rewrite Hassoc. simpl.
  match goal with
  | |- context [_prepare_dataframe_for_plotting r range step false ?w1] =>
      destruct (prepare_empty w1 r df range step false Hr Hsel)
        as (r' & w' & out & -> & Hout & Htrace & _ & Hcols)
  end.
  rewrite (load_run _ _ _ Hout), all_missing_no_rows by done.
  eexists. split; [done|]. simpl. rewrite Htrace. simpl.
  intros ax data kind. rewrite !elem_of_app, !list_elem_of_singleton.
  intros [[[?|?]|?]|?]; [done|done|done|done].
Qed.

Lemma reorder_elem_of df c :
  NoDup (column_names df) →
  c ∈ columns (reorder df) ↔ c ∈ columns df.
Proof.
  intros Hnd. split; [apply pick_columns_elem_of|].
  intros Hc. unfold reorder, pick_columns; cbn [columns].
  apply list_elem_of_In, in_concat.
  exists (filter (λ c', c'.1 = c.1) (columns df)). split.
  - apply list_elem_of_In. apply (list_elem_of_fmap_2' _ _ c.1); [|done].
    rewrite sorted_column_names_Permutation. by apply list_elem_of_fmap_2.
  - apply list_elem_of_In, list_elem_of_filter. done.
Qed.

Lemma strided_Forall {A} (Q : A → Prop) start stop step (l : list A) :
  Forall Q l → Forall Q (strided start stop step l).
Proof.
  intros Hl. unfold strided.
  assert (∀ skip k, Forall Q k → Forall Q (stride step skip k)) as Hstride.
  { intros skip k Hk. revert skip.
    induction Hk as [|x k Hx _ IH]; intros skip; simpl; [done|].
    destruct skip; [constructor|]; auto. }
  by apply Hstride, Forall_take, Forall_drop.
Qed.

(** The columns of a sliced table satisfy what those of the sliced table in
    plot order do. *)
Lemma sliced_reorder_Forall (Q : list cell → Prop) df range step :
  NoDup (column_names df) →
  Forall (λ c, Q c.2) (columns (sliced (reorder df) range step))
  ↔ Forall (λ c, Q c.2) (columns (sliced df range step)).
Proof.
  intros Hnd. unfold sliced, select_rows; cbn [columns].
  change (ix_stop (reorder df) range) with (ix_stop df range).
  rewrite !Forall_fmap, !Forall_forall.
  split; intros H c Hc; apply H; by apply reorder_elem_of.
Qed.

(** With cells that are 0 or 1, the recoded table is all missing exactly
    when the table holds no occurrence. *)
Lemma recoded_all_missing d :
  binary_table d → all_missing (recoded d) = true ↔ no_occurrence d.
Proof.
  intros Hbin. unfold all_missing, no_occurrence, recoded; cbn [columns].
  rewrite forallb_forall, Forall_forall. split.
  - intros H c Hc. apply list_elem_of_lookup in Hc as [i Hi].
    specialize (H (c.1, recode i <$> c.2)).
    rewrite forallb_forall in H. apply Forall_forall. intros x Hx.
    eapply Forall_forall in Hbin; [|by eapply list_elem_of_lookup_2].
    eapply Forall_forall in Hbin; [|exact Hx].
    assert (isna (recode i x) = true) as Hna.
    { apply H.
      - apply list_elem_of_In, list_elem_of_lookup. exists i.
        by rewrite list_lookup_imap, Hi.
      - apply list_elem_of_In. by apply list_elem_of_fmap_2. }
    destruct x as [q|]; [|done]. unfold is_binary in Hbin. unfold is_zero.
    destruct (Qeq_bool q 0) eqn:H0; [done|]. simpl in Hbin.
    by rewrite recode_present in Hna.
  - intros H c' Hc'. apply list_elem_of_In, list_elem_of_lookup in Hc' as [i Hi].
    rewrite list_lookup_imap in Hi.
    destruct (columns d !! i) as [c|] eqn:Hc; simplify_eq/=.
    apply forallb_forall. intros y Hy.
    apply list_elem_of_In, list_elem_of_fmap in Hy as [x [-> Hx]].
    specialize (H c (list_elem_of_lookup_2 _ _ _ Hc)).
    eapply Forall_forall in H; [|exact Hx].
    destruct x as [q|]; [|done]. by rewrite recode_absent.
Qed.

(** X8.  For one known superfeature whose occurrence table (cells 0 or 1)
    is ready, the occurrence rendering prepares the table as occurrences
    (its columns in an order of descending sums, the selected frames,
    every 1 as the rank of its column and every 0 missing) and then draws
    the placeholder ticks, and no data, exactly when no interaction occurs
    in the selected frames; otherwise it draws the prepared table, which
    then has a first and a last frame for the axis limits. *)
Theorem envpartners_occurrences_placeholder_iff d name range step w r df :
  str_contains "all" name = false →
  name ∈ Dynophore.superfeatures d →
  assoc (Dynophore.envpartners_occurrences d) name = Some r →
  heap w !! r = Some df →
  frames_table df →
  binary_table df →
  valid_slice df range step →
  ∃ r' w' out,
    envpartners_occurrences d (Str name) range step w = (Ok (), w')
    ∧ heap w !! r' = None
    ∧ heap w' !! r' = Some out
    ∧ prepared_from df range step true out
    ∧ trace w'
      = trace w
        ++ [Subplots 1 1; SetTitle (0, 0)%nat name;
            GetTable "envpartners_occurrences" name]
        ++ (if decide (no_occurrence (sliced df range step))
            then [PlaceholderTicks (0, 0)%nat]
            else [Plot (0, 0)%nat r' Markers; Cosmetics (0, 0)%nat;
                  Cosmetics (0, 0)%nat]).
Proof.
  intros Hall Hknown Hassoc Hr Hft Hbin Hvalid.
  assert (all_missing (prepared df range step true) = true
          ↔ no_occurrence (sliced df range step)) as Hquiet.
  { unfold prepared. rewrite recoded_all_missing.
    - unfold no_occurrence. apply sliced_reorder_Forall, Hft.
    - unfold binary_table. apply sliced_reorder_Forall; [apply Hft|].
      unfold sliced, select_rows; cbn [columns]. apply Forall_fmap.
      eapply Forall_impl; [exact Hbin|]. intros c Hc; simpl.
      by apply strided_Forall. }
  unfold envpartners_occurrences.
  unfold mbind at 1, M_bind at 1.
  rewrite format_without_all by (simpl; by rewrite Hall).
  unfold mbind at 1, M_bind at 1. simpl.
  unfold mbind at 1, M_bind at 1. rewrite validate_known by done.
  unfold py_len. simpl. unfold get_table, mbind, M_bind, emit. simpl.
  rewrite Hassoc. simpl.
  match goal with
  | |- context [_prepare_dataframe_for_plotting r range step true ?w1] =>
      destruct (prepare_returns w1 r df range step true Hr Hft Hvalid)
        as (r' & w' & -> & Hout & Hfresh & _ & Htrace)
  end.
  exists r'. rewrite (load_run _ _ _ Hout).
  pose proof (prepared_is_prepared_from df range step true Hft) as Hfrom.
  destruct (decide (no_occurrence (sliced df range step))) as [Hno|Hsome].
  - rewrite (proj2 Hquiet Hno). eexists _, _. split; [done|].
    split_and!; [done..|].
    simpl. rewrite Htrace. simpl. by rewrite <-!app_assoc.
  - destruct (all_missing (prepared df range step true)) eqn:Hmiss.
    { exfalso. by apply Hsome, Hquiet. }
    destruct (index (prepared df range step true)) as [|f fs] eqn:Hindex.
    { exfalso. rewrite all_missing_no_rows in Hmiss; [done|].
      assert (columns df ≠ []) as Hcols.
      { intros Hnil. apply Hsome. unfold no_occurrence, sliced, select_rows.
        cbn [columns]. by rewrite Hnil. }
      pose proof (prepared_rectangular df range step true Hft (or_intror Hcols))
        as Hrect.
      unfold shape0 in Hrect. rewrite Hindex in Hrect.
      eapply Forall_impl; [exact Hrect|]. intros c Hc; simpl in *.
      by apply nil_length_inv. }
    eexists _, _. split; [done|]. split_and!; [done..|].
    simpl. rewrite Htrace. simpl. by rewrite <-!app_assoc.
Qed.

Lemma prepared_columns_nil df range step occ :
  frames_table df → columns (prepared df range step occ) = [] → columns df = [].
Proof.
  intros Hft Hnil. pose proof (prepared_names df range step occ Hft) as Hn.
  unfold column_names in Hn at 1. rewrite Hnil in Hn. simpl in Hn.
  pose proof (sorted_column_names_Permutation df) as Hp. rewrite <-Hn in Hp.
  apply Permutation_nil_l in Hp. symmetry in Hp. by apply fmap_nil_inv in Hp.
Qed.

Lemma distances_line_loop d range step n w0 (names : list string) :
  ∀ (g : nat → nat) w,
    heap w0 ⊆ heap w →
    Forall (distances_drawable d w0 range step) names →
    ∃ w' refs,
      for_ (imap (λ i x, (g i, x)) names)
           (λ '(i, superfeature_name),
              let ax := nth_axes n i in
              emit (SetTitle ax superfeature_name);;
              data ← get_table "envpartners_distances"
                       (Dynophore.envpartners_distances d) superfeature_name;
              data ← _prepare_dataframe_for_plotting data range step false;
              if decide ("line" = "line") then
                df_plot ax data Line;;
                emit (Cosmetics ax)
              else if decide ("line" = "hist") then
                df ← load data;
                if all_missing df then raise ValueError
                else
                  let value_floor := Qfloor (df_min df) in
                  let value_ceil := Qceiling (df_max df) in
                  if decide (value_ceil ≤ value_floor) then raise ValueError
                  else
                    emit (Plot ax data Hist);;
                    emit (Cosmetics ax)
              else raise (KeyError UnknownPlottingKind)) w
      = (Ok (), w')
      ∧ heap w ⊆ heap w'
      ∧ trace w'
        = trace w ++ concat (imap (λ i e, line_panel n (g i) e.1 e.2) (zip names refs))
      ∧ Forall2 (λ name r',
                   ∃ r df out,
                     assoc (Dynophore.envpartners_distances d) name = Some r
                     ∧ heap w0 !! r = Some df
                     ∧ heap w0 !! r' = None
                     ∧ heap w' !! r' = Some out
                     ∧ prepared_from df range step false out)
                names refs.
Proof.
  induction names as [|name names IH]; intros g w Hsub Hready.
  { exists w, []. split_and!; [done..|by rewrite app_nil_r|constructor]. }
  apply Forall_cons_1 in Hready
    as [(r & df & Hassoc & Hr & Hft & Hvalid & Hcols & _) Hready].
  rewrite imap_cons. cbn [for_].
  unfold mbind at 1, M_bind at 1.
  unfold get_table, mbind at 1 2 3 4, M_bind at 1 2 3 4, emit at 1 2. simpl.
  rewrite Hassoc. simpl.
  match goal with
  | |- context [_prepare_dataframe_for_plotting r range step false ?w1] =>
      assert (heap w1 !! r = Some df) as Hr1 by (by eapply lookup_weaken);
      destruct (prepare_returns w1 r df range step false Hr1 Hft Hvalid)
        as (r' & w2 & -> & Hout & Hfresh & Hsub2 & Htrace2)
  end.
  simpl in Hsub2, Hfresh.
  unfold df_plot, mbind at 1 2, M_bind at 1 2. rewrite (load_run _ _ _ Hout).
  destruct (columns (prepared df range step false)) as [|c cs] eqn:Hpc.
  { exfalso. by apply Hcols, (prepared_columns_nil df range step false). }
  unfold emit. simpl.
  match goal with
  | |- context [for_ _ _ ?w3] =>
      destruct (IH (g ∘ S) w3) as (w' & refs & Hrun & Hsub' & Htrace' & Hrefs);
        [simpl; by etrans|done|]
  end.
  exists w', (r' :: refs). split_and!.
  - exact Hrun.
  - etrans; [exact Hsub2|]. exact Hsub'.
  - rewrite Htrace'. simpl. rewrite Htrace2. simpl.
    rewrite <-!app_assoc. done.
  - constructor; [|done]. exists r, df, (prepared df range step false).
    split_and!; [done..| | |].
    + by eapply lookup_weaken_None.
    + eapply lookup_weaken; [|exact Hsub']. done.
    + by apply prepared_is_prepared_from.
Qed.

(** X9.  In mode ["line"], for a selection of one or more known
    superfeatures whose distance tables have something to draw, the
    distance rendering makes one panel per selected superfeature, in the
    order selected: each panel reads the table of its superfeature and
    draws a new table, that table prepared without recoding (its columns
    in an order of descending sums, the selected frames, the distances as
    they are). *)
Theorem envpartners_distances_line_panels d names range step w :
  ¬ contains_all names →
  requested names ≠ [] →
  Forall (.∈ Dynophore.superfeatures d) (requested names) →
  Forall (distances_drawable d w range step) (requested names) →
  let n := length (requested names) in
  ∃ w' refs,
    envpartners_distances d names "line" range step w = (Ok (), w')
    ∧ trace w'
      = trace w ++ Subplots n 1
          :: concat (imap (λ i e, line_panel n i e.1 e.2) (zip (requested names) refs))
    ∧ Forall2 (λ name r',
                 ∃ r df out,
                   assoc (Dynophore.envpartners_distances d) name = Some r
                   ∧ heap w !! r = Some df
                   ∧ heap w !! r' = None
                   ∧ heap w' !! r' = Some out
                   ∧ prepared_from df range step false out)
              (requested names) refs.
Proof.
  intros Hall Hne Hknown Hready n. unfold envpartners_distances.
  unfold mbind at 1, M_bind at 1.
  rewrite format_without_all by done. unfold mbind at 1, M_bind at 1.
  rewrite validate_all_known by done. cbn [mret M_ret].
  unfold mbind at 1, M_bind at 1. unfold plt_subplots.
  change (py_len (List (requested names))) with n.
  change (py_iter (List (requested names))) with (requested names).
  rewrite decide_False.
  2:{ intros [Hn|?]; [|done]. by apply nil_length_inv in Hn. }
  unfold emit at 1. unfold enumerate.
  destruct (distances_line_loop d range step n w (requested names) id
              {| heap := heap w; trace := trace w ++ [Subplots n 1] |})
    as (w' & refs & Hrun & _ & Htrace & Hrefs); [done..|].
  exists w', refs. split_and!; [exact Hrun| |done].
  rewrite Htrace. simpl. by rewrite <-app_assoc.
Qed.

(** * The renderings only read the dynophore *)

Section draws_outside.
Context (h0 : gmap ref DataFrame) {A B : Type}.





End draws_outside.






















(** * Further properties of the combined rendering *)

(** X11.  The combined rendering works on one name: the name it is given,
    or the first of the tuple it is given, the rest of which is never
    looked at.  An empty tuple raises [IndexError]; an unknown name raises
    the lookup failure; either way no table has been asked for and nothing
    is drawn. *)
Theorem all_in_one_first_name d arg range step w :
  match first_name arg with
  | None => envpartners_all_in_one d arg range step w = (Raise IndexError, w)
  | Some name =>
      envpartners_all_in_one d arg range step w
      = envpartners_all_in_one d (Name name) range step w
      ∧ (name ∉ Dynophore.superfeatures d →
         envpartners_all_in_one d arg range step w
         = (Raise (KeyError (UnknownSuperfeature name)), w))
  end.
Proof.
  destruct arg as [s|[|s rest]]; simpl.
  - split; [done|]. intros Hs.
    unfold envpartners_all_in_one, envpartners_all_in_one_data, mbind, M_bind.
    simpl. by rewrite validate_unknown.
  - done.
  - split; [done|]. intros Hs.
    unfold envpartners_all_in_one, envpartners_all_in_one_data, mbind, M_bind.
    simpl. by rewrite validate_unknown.
Qed.

(** * The barcode of the superfeatures *)

Lemma df_getitem_Ok df names :
  Forall (.∈ column_names df) names →
  df_getitem df names
  = Ok {| index := index df; columns := pick_columns (columns df) names |}.
Proof.
  intros Hnames. unfold df_getitem.
  erewrite mapM_Ok; [done|].
  apply Forall2_fmap_r, Forall_Forall2_diag.
  eapply Forall_impl; [exact Hnames|]. intros name Hin. simpl.
  apply list_elem_of_fmap in Hin as [c [-> Hc]].
  destruct (filter _ (columns df)) eqn:E; [|done].
  assert (c ∈ filter (λ c', c'.1 = c.1) (columns df)) as Hcf
    by by apply list_elem_of_filter.
  rewrite E in Hcf. by apply elem_of_nil in Hcf.
Qed.

Lemma pick_columns_names (l : list (string * list cell)) names :
  NoDup l.*1 → Forall (.∈ l.*1) names → (pick_columns l names).*1 = names.
Proof.
  intros Hnd. unfold pick_columns.
  induction 1 as [|name names [c [-> Hc]]%list_elem_of_fmap _ IH]; simpl; [done|].
  rewrite (filter_name_unique l c Hnd Hc). simpl. f_equal. exact IH.
Qed.

(** X12.  For a selection of distinct known superfeatures, none of them
    ["all"], the barcode is drawn from a table that has the selected
    superfeatures as its columns, in the order of their descending
    occurrence counts over all frames, with the selected frames as rows
    when a superfeature is selected at all; and the colours handed to the plot follow that order: colour [j] is
    the colour of the feature type (the name up to its first bracket) of
    column [j], black for a type without colour, one black for all when
    colouring by type is off. *)
Theorem superfeatures_occurrences_columns_and_colors
    d FEATURE_COLORS names color_by range step w df :
  ¬ contains_all names →
  Forall (.∈ Dynophore.superfeatures d) (requested names) →
  heap w !! Dynophore.superfeatures_occurrences d = Some df →
  frames_table df →
  NoDup (requested names) →
  Forall (.∈ column_names df) (requested names) →
  valid_slice df range step →
  ∃ r' cs w' out totals,
    superfeatures_occurrences_data d FEATURE_COLORS names color_by range step w
    = (Ok (r', cs), w')
    ∧ heap w' !! r' = Some out
    ∧ column_names out ≡ₚ requested names
    ∧ column_names out = totals.*1
    ∧ StronglySorted by_sum_desc totals
    ∧ Forall (.∈ df_apply_sum df) totals
    ∧ (requested names ≠ [] →
       index out
       = strided (Z.to_nat range.1) (Z.to_nat (ix_stop df range))
                 (Z.to_nat step) (index df))
    ∧ cs = (if color_by
            then ColorList (feature_color FEATURE_COLORS <$> column_names out)
            else OneColor "black").
Proof.
  intros Hall Hknown Hr (Hix & Hrect & Hnd) Hdistinct Hcols Hvalid.
  set (sel := {| index := index df;
                 columns := pick_columns (columns df) (requested names) |}).
  assert (column_names sel = requested names) as Hsel_names
    by by apply pick_columns_names.
  assert (frames_table sel) as Hft.
  { split_and!; [done| |by rewrite Hsel_names].
    apply Forall_forall. intros c Hc%pick_columns_elem_of.
    by eapply Forall_forall in Hrect. }
  unfold superfeatures_occurrences_data.
  unfold mbind at 1, M_bind at 1.
  rewrite format_without_all by done. unfold mbind at 1, M_bind at 1.
  rewrite validate_all_known by done. cbn [mret M_ret is_all].
  unfold mbind at 1, M_bind at 1. unfold mbind at 1, M_bind at 1.
  rewrite (load_run _ _ _ Hr).
  unfold mbind at 1, M_bind at 1. unfold lift at 1.
  change (requested (List (requested names))) with (requested names).
  rewrite df_getitem_Ok by done. fold sel.
  destruct (new_run sel w) as (r1 & w1 & -> & _ & Hh1 & _).
  assert (heap w1 !! r1 = Some sel) as Hr1 by by rewrite Hh1, lookup_insert_eq.
  unfold mbind at 1, M_bind at 1.
  destruct (prepare_returns w1 r1 sel range step true Hr1 Hft Hvalid)
    as (r' & w' & -> & Hout & _).
  unfold mbind, M_bind. rewrite (load_run _ _ _ Hout). cbn [mret M_ret].
  destruct (sorted_totals sel Hft) as (totals & Hperm & Hsorted & Hnames).
  exists r', (if color_by
              then ColorList (feature_color FEATURE_COLORS
                                <$> column_names (prepared sel range step true))
              else OneColor "black"),
         w', (prepared sel range step true), totals.
  split_and!; [|done| | |done| | |done].
  - destruct color_by; [|done]. unfold feature_color.
    rewrite <-list_fmap_compose. reflexivity.
  - rewrite prepared_names by done.
    rewrite sorted_column_names_Permutation. by rewrite Hsel_names.
  - by rewrite prepared_names.
  - apply Forall_forall. intros e He. rewrite Hperm in He.
    apply list_elem_of_fmap in He as [c [-> Hc%pick_columns_elem_of]].
    by apply (list_elem_of_fmap_2 (λ c, (c.1, py_sum c.2))).
  - intros Hne. rewrite (prepared_index sel); [done..|].
    right. intros Hnil. apply Hne. rewrite <-Hsel_names.
    unfold column_names. by rewrite Hnil.
Qed.

(** * The heatmap of superfeatures against environment partners *)

Lemma filter_enumerate_absent (g : nat → nat) (cols : list string) name :
  name ∉ cols →
  filter (λ e : nat * string, e.2 = name) (imap (λ i x, (g i, x)) cols) = [].
Proof.
  revert g. induction cols as [|x l IH]; intros g Hn; [done|].
  rewrite imap_cons. apply not_elem_of_cons in Hn as [? ?].
  rewrite filter_cons_False by (simpl; congruence). by apply (IH (g ∘ S)).
Qed.

(** Under distinct column names a name picks one column, at its position. *)
Lemma filter_enumerate_unique (g : nat → nat) (cols : list string) name :
  NoDup cols → name ∈ cols →
  filter (λ e : nat * string, e.2 = name) (imap (λ i x, (g i, x)) cols)
  = [(g (column_index cols name), name)].
Proof.
  revert g. induction cols as [|x l IH]; intros g Hnd Hin;
    [by apply elem_of_nil in Hin|].
  apply NoDup_cons in Hnd as [Hx Hnd]. rewrite imap_cons.
  unfold column_index. simpl. destruct (decide (x = name)) as [->|Hne].
  - rewrite filter_cons_True by done. f_equal.
    by apply (filter_enumerate_absent (g ∘ S)).
  - rewrite filter_cons_False by done.
    apply elem_of_cons in Hin as [?|Hin]; [congruence|].
    etrans; [by apply (IH (g ∘ S))|]. unfold column_index.
    by destruct (list_find_elem_of (.= name) l name Hin eq_refl) as [[i y] ->].
Qed.

Lemma column_index_lookup (cols : list string) name :
  name ∈ cols → cols !! column_index cols name = Some name.
Proof.
  intros Hin. unfold column_index.
  destruct (list_find_elem_of (.= name) cols name Hin eq_refl) as [[i y] Hf].
  rewrite Hf. by apply list_find_Some in Hf as (? & -> & _).
Qed.

Lemma row_cell_fmap (cols : list string) (f : string → cell) name :
  name ∈ cols → row_cell cols (f <$> cols) name = f name.
Proof.
  intros Hin. unfold row_cell, cell_at.
  by rewrite list_lookup_fmap, column_index_lookup.
Qed.

(** Selecting columns that the table has, by distinct names: the columns
    come in the order asked for, each row with its cells under them. *)
Lemma ft_getitem_Ok t names :
  NoDup (ft_columns t) → Forall (.∈ ft_columns t) names →
  ft_getitem t names
  = Ok {| ft_columns := names;
          ft_rows := (λ r, (r.1, row_cell (ft_columns t) r.2 <$> names))
                     <$> ft_rows t |}.
Proof.
  intros Hnd Hin. unfold ft_getitem.
  rewrite (mapM_Ok _ _ ((λ name, [(column_index (ft_columns t) name, name)])
                         <$> names)).
  2: { apply Forall2_fmap_r, Forall_Forall2_diag.
       eapply Forall_impl; [exact Hin|]. intros name Hname. simpl.
       unfold enumerate. by rewrite (filter_enumerate_unique id). }
  simpl.
  assert (concat ((λ name, [(column_index (ft_columns t) name, name)]) <$> names)
          = (λ name, (column_index (ft_columns t) name, name)) <$> names) as ->.
  { clear Hin. induction names as [|name names IH]; csimpl; [done|].
    by rewrite IH. }
  f_equal. f_equal.
  - rewrite <-list_fmap_compose. apply list_fmap_id.
  - apply list_fmap_ext. intros _ r _. f_equal.
    by rewrite <-list_fmap_compose.
Qed.

Lemma ft_loc_Ok t label cells :
  NoDup (ft_columns t) → assoc (ft_rows t) label = Some cells →
  ft_loc t label
  = Ok ((λ name, (name, row_cell (ft_columns t) cells name)) <$> ft_columns t).
Proof.
  intros Hnd Hrow. unfold ft_loc. rewrite Hrow. f_equal.
  unfold enumerate. rewrite fmap_imap.
  apply list_eq. intros i. rewrite list_lookup_imap, list_lookup_fmap.
  destruct (ft_columns t !! i) as [x|] eqn:Hi; [|done]. simpl.
  do 2 f_equal. unfold row_cell, column_index.
  assert (list_find (.= x) (ft_columns t) = Some (i, x)) as ->; [|done].
  apply list_find_Some. split_and!; [done..|].
  intros j y Hj Hlt ->. assert (i = j); [|lia]. by eapply NoDup_lookup.
Qed.

Lemma StronglySorted_fmap_inv {A B} (f : A → B) (R : relation B) (l : list A) :
  StronglySorted R (f <$> l) → StronglySorted (λ a b, R (f a) (f b)) l.
Proof.
  induction l as [|x l IH]; csimpl; [constructor|].
  intros [Hl Hx]%StronglySorted_inv. constructor; [by apply IH|].
  rewrite Forall_fmap in Hx. exact Hx.
Qed.

Lemma filter_fmap {A B} (f : A → B) (P : B → Prop) (Q : A → Prop)
    `{!∀ y, Decision (P y)} `{!∀ x, Decision (Q x)} (l : list A) :
  (∀ x, P (f x) ↔ Q x) → filter P (f <$> l) = f <$> filter Q l.
Proof.
  intros HPQ. induction l as [|x l IH]; csimpl; [done|].
  destruct (decide (Q x)) as [Hx|Hx].
  - rewrite (filter_cons_True P) by by apply HPQ.
    rewrite (filter_cons_True Q) by done. csimpl. by rewrite IH.
  - rewrite (filter_cons_False P) by by rewrite HPQ.
    by rewrite (filter_cons_False Q).
Qed.

Lemma forallb_false_Exists {A} (f : A → bool) (l : list A) :
  forallb f l = false ↔ Exists (λ x, f x = false) l.
Proof.
  induction l as [|x l IH]; simpl.
  - split; [done|]. by intros ?%Exists_nil.
  - rewrite Exists_cons, <-IH. destruct (f x); simpl.
    + split; [by right|]. by intros [?|?].
    + split; [by left|done].
Qed.

(** The columns of the heatmap before a selection: those of the frequency
    table, in the order of their descending frequency in the row ["any"]. *)
Lemma heatmap_columns t cells :
  NoDup (ft_columns t) → assoc (ft_rows t) "any" = Some cells →
  ∃ any order,
    ft_loc t "any" = Ok any
    ∧ (sort_values_desc any).*1 = order
    ∧ order ≡ₚ ft_columns t
    ∧ StronglySorted (by_frequency_desc (ft_columns t) cells) order.
Proof.
  intros Hnd Hany. eexists _, _. split; [by apply ft_loc_Ok|].
  split; [done|].
  set (h := λ name, (name, row_cell (ft_columns t) cells name)).
  assert (h <$> (sort_values_desc (h <$> ft_columns t)).*1
          = sort_values_desc (h <$> ft_columns t)) as Hh.
  { assert (Forall (λ e, h e.1 = e) (sort_values_desc (h <$> ft_columns t))) as H.
    { apply Forall_forall. intros e He. rewrite sort_values_desc_Permutation in He.
      by apply list_elem_of_fmap in He as [name [-> _]]. }
    induction H as [|e l He _ IH]; csimpl; [done|]. by rewrite He, IH. }
  split.
  - rewrite sort_values_desc_Permutation, <-list_fmap_compose.
    by rewrite list_fmap_id.
  - apply (StronglySorted_fmap_inv h by_sum_desc). rewrite Hh.
    apply sort_values_desc_sorted.
Qed.

(** X13.  When the selector mentions ["all"], the heatmap is drawn from
    the whole frequency table: every column once, in the order of their
    descending frequency in the row ["any"], and every row, also one of
    zeros only, with its cells under those columns.  One figure is opened
    and no table of the dynophore is touched. *)
Theorem heatmap_all_sorted_by_any d t names w cells :
  contains_all names →
  NoDup (ft_rows t).*1 → NoDup (ft_columns t) →
  assoc (ft_rows t) "any" = Some cells →
  ∃ out,
    superfeatures_vs_envpartners d t names w
    = (Ok out, {| heap := heap w; trace := trace w ++ [Subplots 1 1] |})
    ∧ ft_columns out ≡ₚ ft_columns t
    ∧ StronglySorted (by_frequency_desc (ft_columns t) cells) (ft_columns out)
    ∧ ft_rows out
      = (λ r, (r.1, row_cell (ft_columns t) r.2 <$> ft_columns out)) <$> ft_rows t.
Proof.
  intros Hall _ Hnd Hany.
  destruct (heatmap_columns t cells Hnd Hany)
    as (any & order & Hloc & Horder & Hperm & Hsorted).
  unfold superfeatures_vs_envpartners. unfold mbind at 1, M_bind at 1.
  rewrite format_mentions_all_run by done.
  unfold mbind at 1, M_bind at 1, lift at 1. rewrite Hloc.
  unfold mbind at 1, M_bind at 1, lift at 1. rewrite Horder.
  rewrite ft_getitem_Ok; [|done|].
  2: { apply Forall_forall. intros name. by rewrite Hperm. }
  eexists. split; [reflexivity|]. by simpl.
Qed.

(** X14.  For a selection of known superfeatures, none of them ["all"],
    the heatmap has the selected columns in the order they were asked
    for, not that of their frequencies, and only the rows with a
    frequency other than zero under one of them, the row ["any"]
    included; each cell is the cell of the frequency table for that row
    and superfeature. *)
Theorem heatmap_selection_drops_zero_rows d t names w cells :
  ¬ contains_all names →
  Forall (.∈ Dynophore.superfeatures d) (requested names) →
  NoDup (ft_rows t).*1 → NoDup (ft_columns t) →
  assoc (ft_rows t) "any" = Some cells →
  Forall (.∈ ft_columns t) (requested names) →
  ∃ out,
    superfeatures_vs_envpartners d t names w
    = (Ok out, {| heap := heap w; trace := trace w ++ [Subplots 1 1] |})
    ∧ ft_columns out = requested names
    ∧ ft_rows out
      = (λ r, (r.1, row_cell (ft_columns t) r.2 <$> requested names))
        <$> filter (interacts (ft_columns t) (requested names)) (ft_rows t).
Proof.
  intros Hall Hknown _ Hnd Hany Hcols.
  destruct (heatmap_columns t cells Hnd Hany)
    as (any & order & Hloc & Horder & Hperm & Hsorted).
  unfold superfeatures_vs_envpartners. unfold mbind at 1, M_bind at 1.
  rewrite format_without_all by done. unfold mbind at 1, M_bind at 1.
  rewrite validate_all_known by done. cbn [mret M_ret is_all].
  unfold mbind at 1, M_bind at 1, lift at 1. rewrite Hloc.
  unfold mbind at 1, M_bind at 1, lift at 1. rewrite Horder.
  rewrite ft_getitem_Ok; [|done|].
  2: { apply Forall_forall. intros name. by rewrite Hperm. }
  unfold mbind at 1, M_bind at 1. unfold mbind at 1, M_bind at 1, lift at 1.
  change (requested (List (requested names))) with (requested names).
  assert (Forall (.∈ order) (requested names)) as Hin.
  { eapply Forall_impl; [exact Hcols|]. intros name. by rewrite Hperm. }
  rewrite ft_getitem_Ok; cbn [ft_columns ft_rows]; [|by rewrite Hperm|done].
  eexists. split; [reflexivity|]. split; [done|].
  cbn [ft_rows ft_drop_zero_rows ft_columns].
  rewrite <-list_fmap_compose.
  rewrite (filter_fmap _ _ (interacts (ft_columns t) (requested names))).
  - apply list_fmap_ext. intros _ r _. simpl. f_equal.
    apply Forall_fmap_ext_1. eapply Forall_impl; [exact Hin|].
    intros name Hname. by rewrite row_cell_fmap.
  - intros r. simpl. rewrite forallb_false_Exists, Exists_fmap.
    unfold interacts. rewrite !Exists_exists.
    rewrite Forall_forall in Hin.
    split; intros (name & Hname & Hz); exists name; (split; [done|]);
      simpl in *; specialize (Hin name Hname).
    + by rewrite row_cell_fmap in Hz.
    + by rewrite row_cell_fmap.
Qed.

(** X15.  The heatmap orders its columns by the row ["any"] of the
    frequency table whatever the selection.  Without that row a selection
    that passes the normalization raises the [KeyError] of ["any"]; no
    figure is opened and nothing else has happened. *)
Theorem heatmap_without_any_row d t names w :
  assoc (ft_rows t) "any" = None →
  contains_all names ∨ Forall (.∈ Dynophore.superfeatures d) (requested names) →
  superfeatures_vs_envpartners d t names w = (Raise (KeyError (MissingKey "any")), w).
Proof.
  intros Hany Hnames. unfold superfeatures_vs_envpartners.
  unfold mbind at 1, M_bind at 1.
  destruct (decide (contains_all names)) as [Hall|Hall].
  - rewrite format_mentions_all_run by done.
    unfold mbind, M_bind, lift, ft_loc. by rewrite Hany.
  - destruct Hnames as [?|Hknown]; [done|].
    rewrite format_without_all by done. unfold mbind at 1, M_bind at 1.
    rewrite validate_all_known by done. cbn [mret M_ret].
    unfold mbind, M_bind, lift, ft_loc. by rewrite Hany.
Qed.

(** X16.  When the selector mentions ["all"] the barcode takes the
    dynophore's own table of superfeature occurrences, no column selected
    or checked: the table drawn is a new table, that table prepared as
    occurrences (its columns in an order of descending sums, the selected
    frames, every 1 as the rank of its column and every 0 missing), with
    every superfeature as a column, and the colours follow its columns. *)
Theorem superfeatures_occurrences_all_columns
    d FEATURE_COLORS names color_by range step w df :
  contains_all names →
  heap w !! Dynophore.superfeatures_occurrences d = Some df →
  frames_table df →
  valid_slice df range step →
  ∃ r' cs w' out,
    superfeatures_occurrences_data d FEATURE_COLORS names color_by range step w
    = (Ok (r', cs), w')
    ∧ heap w !! r' = None
    ∧ heap w' !! r' = Some out
    ∧ prepared_from df range step true out
    ∧ column_names out ≡ₚ column_names df
    ∧ cs = (if color_by
            then ColorList (feature_color FEATURE_COLORS <$> column_names out)
            else OneColor "black").
Proof.
  intros Hall Hr Hft Hvalid.
  unfold superfeatures_occurrences_data.
  unfold mbind at 1, M_bind at 1.
  rewrite format_mentions_all_run by done. cbn [is_all].
  rewrite bool_decide_eq_true_2 by done.
  unfold mbind at 1, M_bind at 1. cbn [mret M_ret].
  unfold mbind at 1, M_bind at 1.
  destruct (prepare_returns w _ df range step true Hr Hft Hvalid)
    as (r' & w' & -> & Hout & Hfresh & _).
  unfold mbind, M_bind. rewrite (load_run _ _ _ Hout). cbn [mret M_ret].
  exists r', (if color_by
              then ColorList (feature_color FEATURE_COLORS
                                <$> column_names (prepared df range step true))
              else OneColor "black"),
         w', (prepared df range step true).
  split_and!; [|done|done| | |done].
  - destruct color_by; [|done]. unfold feature_color.
    rewrite <-list_fmap_compose. reflexivity.
  - by apply prepared_is_prepared_from.
  - rewrite prepared_names by done. apply sorted_column_names_Permutation.
Qed.

(** * The further properties on the small dynophore *)

(** X1 on the table of ten frames, every third frame from 1 to 7. *)
Lemma slice_rows_strided_example :
  ∃ r' w' out,
    _slice_dataframe_rows 3%nat (1, Some 7) 3 example_world = (Ok r', w')
    ∧ heap w' !! r' = Some out
    ∧ index out = [1; 4; 7]
    ∧ column_names out = column_names example_ten_frames
    ∧ Forall (λ c, length c.2 = 3%nat) (columns out).
Proof.
  apply (slice_rows_strided example_world 3%nat example_ten_frames (1, Some 7) 3).
  - reflexivity.
  - reflexivity.
  - by_evaluation.
  - by_evaluation.
Defined.

(** X2 on the table whose frames are numbered from 5. *)
Lemma slice_rows_label_not_a_position_example :
  _slice_dataframe_rows 0%nat (0, None) 1 example_offset_world
  = (Raise IndexError, example_offset_world).
Proof.
  apply (slice_rows_label_not_a_position
           example_offset_world 0%nat example_offset_frames (0, None) 1 5).
  - reflexivity.
  - by_evaluation.
  - by_evaluation.
  - right. by_evaluation.
Defined.

(** X3 on the occurrences of the partners of [H[1]], frames 0 and 2. *)
Lemma prepare_cells_by_frame_example :
  ∃ r' w' out,
    _prepare_dataframe_for_plotting 1%nat (0, Some 2) 2 true example_world = (Ok r', w')
    ∧ heap w' !! r' = Some out
    ∧ column_names out ≡ₚ column_names example_occurrences
    ∧ ∀ i name cells' k f,
        columns out !! i = Some (name, cells') →
        index out !! k = Some f →
        ∃ cells c,
          (name, cells) ∈ columns example_occurrences
          ∧ 0 ≤ f
          ∧ cells !! Z.to_nat f = Some c
          ∧ cells' !! k = Some (recode i c).
Proof.
  apply (prepare_cells_by_frame example_world 1%nat example_occurrences (0, Some 2) 2 true).
  - reflexivity.
  - by_evaluation.
  - by_evaluation.
Defined.

(** X5 on a tuple of the two superfeatures. *)
Lemma format_idempotent_example :
  _format_superfeature_names example_dynophore (List ["AR[2]"; "H[1]"]) example_world
  = (Ok (List ["AR[2]"; "H[1]"]), example_world).
Proof.
  apply (format_idempotent example_dynophore (Tuple ["AR[2]"; "H[1]"]) example_world).
  reflexivity.
Defined.

(** X6 on a list that names [all] next to a superfeature. *)
Lemma envpartners_all_selector_read_by_character_example :
  envpartners_occurrences example_dynophore (List ["H[1]"; "all"]) (0, None) 1
    example_world
  = (Raise (KeyError (MissingKey "a")),
     {| heap := heap example_world;
        trace := trace example_world
                 ++ [Subplots 3 1; SetTitle (0, 0)%nat "a";
                     GetTable "envpartners_occurrences" "a"] |})
  ∧ envpartners_distances example_dynophore (List ["H[1]"; "all"]) "hist" (0, None) 1
      example_world
    = (Raise (KeyError (MissingKey "a")),
       {| heap := heap example_world;
          trace := trace example_world
                   ++ [Subplots 3 1; SetTitle (0, 0)%nat "a";
                       GetTable "envpartners_distances" "a"] |}).
Proof.
  apply (envpartners_all_selector_read_by_character
           example_dynophore (List ["H[1]"; "all"]) "hist" (0, None) 1 example_world).
  - by_evaluation.
  - reflexivity.
  - reflexivity.
Defined.

(** X7 on the distances of [H[1]], from a start past the last frame. *)
Lemma envpartners_distances_hist_without_frames_example :
  ∃ w',
    envpartners_distances example_dynophore (Str "H[1]") "hist" (5, None) 1 example_world
    = (Raise ValueError, w')
    ∧ ∀ ax data kind,
        Plot ax data kind ∈ trace w' → Plot ax data kind ∈ trace example_world.
Proof.
  apply (envpartners_distances_hist_without_frames
           example_dynophore (Str "H[1]") "H[1]" [] (5, None) 1 example_world
           2%nat example_distances).
  - by_evaluation.
  - reflexivity.
  - by_evaluation.
  - reflexivity.
  - reflexivity.
  - reflexivity.
Defined.

(** X8 on the occurrences of the partners of [H[1]], all frames. *)
Lemma envpartners_occurrences_placeholder_iff_example :
  ∃ r' w' out,
    envpartners_occurrences example_dynophore (Str "H[1]") (0, None) 1 example_world
    = (Ok (), w')
    ∧ heap example_world !! r' = None
    ∧ heap w' !! r' = Some out
    ∧ prepared_from example_occurrences (0, None) 1 true out
    ∧ trace w'
      = trace example_world
        ++ [Subplots 1 1; SetTitle (0, 0)%nat "H[1]";
            GetTable "envpartners_occurrences" "H[1]"]
        ++ (if decide (no_occurrence (sliced example_occurrences (0, None) 1))
            then [PlaceholderTicks (0, 0)%nat]
            else [Plot (0, 0)%nat r' Markers; Cosmetics (0, 0)%nat;
                  Cosmetics (0, 0)%nat]).
Proof.
  apply (envpartners_occurrences_placeholder_iff
           example_dynophore "H[1]" (0, None) 1 example_world 1%nat example_occurrences).
  - reflexivity.
  - by_evaluation.
  - reflexivity.
  - reflexivity.
  - by_evaluation.
  - by_evaluation.
  - by_evaluation.
Defined.

(** X9 on the distances of [H[1]]. *)
Lemma envpartners_distances_line_panels_example :
  ∃ w' refs,
    envpartners_distances example_dynophore (List ["H[1]"]) "line" (0, None) 1
      example_world = (Ok (), w')
    ∧ trace w'
      = trace example_world
        ++ Subplots 1 1
           :: concat (imap (λ i e, line_panel 1 i e.1 e.2) (zip ["H[1]"] refs))
    ∧ Forall2 (λ name r',
                 ∃ r df out,
                   assoc (Dynophore.envpartners_distances example_dynophore) name = Some r
                   ∧ heap example_world !! r = Some df
                   ∧ heap example_world !! r' = None
                   ∧ heap w' !! r' = Some out
                   ∧ prepared_from df (0, None) 1 false out)
              ["H[1]"] refs.
Proof.
  apply (envpartners_distances_line_panels
           example_dynophore (List ["H[1]"]) (0, None) 1 example_world).
  - by_evaluation.
  - discriminate.
  - by_evaluation.
  - constructor; [|constructor].
    exists 2%nat, example_distances. split_and!.
    + reflexivity.
    + reflexivity.
    + by_evaluation.
    + by_evaluation.
    + discriminate.
    + discriminate.
Defined.

(** X12 on both superfeatures, the rarer one asked for first. *)
Lemma superfeatures_occurrences_columns_and_colors_example :
  ∃ r' cs w' out totals,
    superfeatures_occurrences_data example_dynophore example_feature_colors
      (List ["H[1]"; "AR[2]"]) true (0, None) 1 example_world
    = (Ok (r', cs), w')
    ∧ heap w' !! r' = Some out
    ∧ column_names out ≡ₚ ["H[1]"; "AR[2]"]
    ∧ column_names out = totals.*1
    ∧ StronglySorted by_sum_desc totals
    ∧ Forall (.∈ df_apply_sum example_superfeatures) totals
    ∧ (["H[1]"; "AR[2]"] ≠ [] →
       index out
       = strided (Z.to_nat 0) (Z.to_nat (ix_stop example_superfeatures (0, None)))
                 (Z.to_nat 1) (index example_superfeatures))
    ∧ cs = ColorList (feature_color example_feature_colors <$> column_names out).
Proof.
  apply (superfeatures_occurrences_columns_and_colors
           example_dynophore example_feature_colors (List ["H[1]"; "AR[2]"]) true
           (0, None) 1 example_world example_superfeatures).
  - by_evaluation.
  - by_evaluation.
  - reflexivity.
  - by_evaluation.
  - by_evaluation.
  - by_evaluation.
  - by_evaluation.
Defined.

(** X13 on the frequencies of the small dynophore. *)
Lemma heatmap_all_sorted_by_any_example :
  ∃ out,
    superfeatures_vs_envpartners example_dynophore example_frequency (Str "all")
      example_world
    = (Ok out, {| heap := heap example_world;
                  trace := trace example_world ++ [Subplots 1 1] |})
    ∧ ft_columns out ≡ₚ ft_columns example_frequency
    ∧ StronglySorted
        (by_frequency_desc (ft_columns example_frequency) [Num 25; Num 75; Num 0])
        (ft_columns out)
    ∧ ft_rows out
      = (λ r, (r.1, row_cell (ft_columns example_frequency) r.2 <$> ft_columns out))
        <$> ft_rows example_frequency.
Proof.
  apply (heatmap_all_sorted_by_any example_dynophore example_frequency (Str "all")
           example_world [Num 25; Num 75; Num 0]).
  - by_evaluation.
  - by_evaluation.
  - by_evaluation.
  - reflexivity.
Defined.

(** X14 on [H[1]] alone: two of the four rows have no frequency for it. *)
Lemma heatmap_selection_drops_zero_rows_example :
  ∃ out,
    superfeatures_vs_envpartners example_dynophore example_frequency (Str "H[1]")
      example_world
    = (Ok out, {| heap := heap example_world;
                  trace := trace example_world ++ [Subplots 1 1] |})
    ∧ ft_columns out = ["H[1]"]
    ∧ ft_rows out
      = (λ r, (r.1, row_cell (ft_columns example_frequency) r.2 <$> ["H[1]"]))
        <$> filter (interacts (ft_columns example_frequency) ["H[1]"])
                   (ft_rows example_frequency).
Proof.
  apply (heatmap_selection_drops_zero_rows example_dynophore example_frequency
           (Str "H[1]") example_world [Num 25; Num 75; Num 0]).
  - by_evaluation.
  - by_evaluation.
  - by_evaluation.
  - by_evaluation.
  - reflexivity.
  - by_evaluation.
Defined.

(** X15 on a frequency table that lost its row [any]. *)
Lemma heatmap_without_any_row_example :
  superfeatures_vs_envpartners example_dynophore
    {| ft_columns := ["H[1]"; "AR[2]"];
       ft_rows := [("ILE-10", [Num 25; Num 0])] |}
    (List ["AR[2]"]) example_world
  = (Raise (KeyError (MissingKey "any")), example_world).
Proof.
  apply (heatmap_without_any_row example_dynophore
           {| ft_columns := ["H[1]"; "AR[2]"];
              ft_rows := [("ILE-10", [Num 25; Num 0])] |}
           (List ["AR[2]"]) example_world).
  - reflexivity.
  - right. by_evaluation.
Defined.

(** X16 on the superfeatures of the small dynophore, coloured by type. *)
Lemma superfeatures_occurrences_all_columns_example :
  ∃ r' cs w' out,
    superfeatures_occurrences_data example_dynophore example_feature_colors
      (Tuple ["all"]) true (0, None) 1 example_world
    = (Ok (r', cs), w')
    ∧ heap example_world !! r' = None
    ∧ heap w' !! r' = Some out
    ∧ prepared_from example_superfeatures (0, None) 1 true out
    ∧ column_names out ≡ₚ column_names example_superfeatures
    ∧ cs = ColorList (feature_color example_feature_colors <$> column_names out).
Proof.
  apply (superfeatures_occurrences_all_columns
           example_dynophore example_feature_colors (Tuple ["all"]) true
           (0, None) 1 example_world example_superfeatures).
  - by_evaluation.
  - reflexivity.
  - by_evaluation.
  - by_evaluation.
Defined.
